(** * Anthropometric consistency checker: a shallow embedding of [script.py]

    The development embeds [DetecteurIncoherenceTaille] (its two reference
    tables, [valider_donnees], [_obtenir_plage_taille] and
    [_estimer_poids_enfant]) and proves properties of the embedding.

    Modelling conventions.
    - Python numbers: [age] is an [int] and is modelled as [Z]; every other
      measurement and the score are modelled as exact rationals [Q].  The
      arithmetic is therefore the exact one: rounding, overflow, underflow
      and NaN of binary64 are outside the model.
    - The input dictionary carries the keys listed in the docstring of
      [valider_donnees]; it is modelled as a record of optional fields, where
      [None] stands for "key absent, or key bound to the Python [None]".
    - Exceptions are explicit: a computation returns [Ok v] or [Raise e].
    - An f-string message is modelled by a constructor of [Message] that
      carries the interpolated values (their textual formatting is not
      modelled). *)

From Stdlib Require Import ZArith QArith Qabs String Ascii List Bool Lia Lqa.
Import ListNotations.

Open Scope Q_scope.

(* ------------------------------------------------------------------ *)
(** ** Python numbers *)

Module Py.

(** [a < b] on numbers, as a boolean. *)
Definition lt (a b : Q) : bool := negb (Qle_bool b a).

(** [a <= b]. *)
Definition le (a b : Q) : bool := Qle_bool a b.

(** [a > b] is [b < a]. *)
Definition gt (a b : Q) : bool := lt b a.

(** Truth value of a number: every number but zero is true. *)
Definition truthy (a : Q) : bool := negb (Qeq_bool a 0).

(** [max(a, b)]: the first argument unless the second is strictly larger. *)
Definition max (a b : Q) : Q := if lt a b then b else a.

(** [min(a, b)]: the first argument unless the second is strictly smaller. *)
Definition min (a b : Q) : Q := if lt b a then b else a.

(** [x ** 2]. *)
Definition carre (x : Q) : Q := x ^ 2.

(** [str.lower()] on one character (ASCII letters). *)
Definition lower_ascii (c : ascii) : ascii :=
  let n := nat_of_ascii c in
  if andb (Nat.leb 65 n) (Nat.leb n 90) then ascii_of_nat (n + 32) else c.

(** [str.lower()]. *)
Fixpoint lower (s : string) : string :=
  match s with
  | EmptyString => EmptyString
  | String c s' => String (lower_ascii c) (lower s')
  end.

(** [x in l] for a list of strings. *)
Definition dans (x : string) (l : list string) : bool :=
  existsb (String.eqb x) l.

End Py.

(* ------------------------------------------------------------------ *)
(** ** Exceptions *)

(** The exceptions the embedded code can raise. *)
Inductive Exception : Type :=
| KeyError (cle : string)
| ZeroDivisionError.

(** Outcome of a computation that may raise. *)
Inductive Res (A : Type) : Type :=
| Ok (a : A)
| Raise (e : Exception).

Arguments Ok {A} a.
Arguments Raise {A} e.

Definition bind {A B : Type} (m : Res A) (f : A -> Res B) : Res B :=
  match m with
  | Ok a => f a
  | Raise e => Raise e
  end.

(** [a / b]: true division, raising on a zero divisor. *)
Definition div (a b : Q) : Res Q :=
  if Qeq_bool b 0 then Raise ZeroDivisionError else Ok (a / b).

Notation "x <- m ;; k" := (bind m (fun x => k))
  (at level 61, m at next level, right associativity).

(* ------------------------------------------------------------------ *)
(** ** Data model *)

(** The input dictionary [donnees].  [None]: the key is absent or bound to
    [None]. *)
Record Donnees : Type := {
  age : option Z;
  sexe : option string;
  taille : option Q;
  poids : option Q;
  tour_taille : option Q;
  envergure : option Q;
  longueur_jambe : option Q;
  taille_mere : option Q;
  taille_pere : option Q
}.

(** The messages built by [valider_donnees], one constructor per f-string,
    with the values the f-string interpolates. *)
Inductive Message : Type :=
| ChampManquant (champ : string)
| AgeInvalide (a : Z)
| SexeInvalide (s : string)
| TailleInvalide (t : Q)
| PoidsInvalide (p : Q)
| TailleIncoherente (s : string) (a : Z) (t : Q) (min_taille max_taille : Z)
| IMCExtreme (imc p t : Q)
| IMCInhabituel (imc : Q)
| RatioTourTaille (ratio min_r max_r : Q)
| RatioEnvergure (ratio min_r max_r : Q)
| EnvergureAtypique (env t : Q)
| RatioJambe (ratio min_r max_r : Q)
| PoidsTailleExtreme (t p poids_min poids_max : Q)
| PoidsInhabituel (p poids_attendu : Q)
| TourTailleSupEnvergure (tt env : Q)
| JambeSupEnvergure (lj env : Q).

(** The dataclass [ValidationResult]. *)
Record ValidationResult : Type := {
  est_valide : bool;
  erreurs : list Message;
  avertissements : list Message;
  score_coherence : Q
}.

(** The three local variables [erreurs], [avertissements] and [score] that
    [valider_donnees] updates as it goes. *)
Record Etat : Type := {
  e_erreurs : list Message;
  e_avertissements : list Message;
  e_score : Q
}.

(** [erreurs = []; avertissements = []; score = 100.0] *)
Definition etat_initial : Etat :=
  {| e_erreurs := []; e_avertissements := []; e_score := 100 |}.

(** [erreurs.append(m); score -= pts] *)
Definition ajouter_erreur (m : Message) (pts : Q) (st : Etat) : Etat :=
  {| e_erreurs := e_erreurs st ++ [m];
     e_avertissements := e_avertissements st;
     e_score := e_score st - pts |}.

(** [avertissements.append(m); score -= pts] *)
Definition ajouter_avertissement (m : Message) (pts : Q) (st : Etat) : Etat :=
  {| e_erreurs := e_erreurs st;
     e_avertissements := e_avertissements st ++ [m];
     e_score := e_score st - pts |}.

(** [if erreurs:] *)
Definition non_vide {A : Type} (l : list A) : bool :=
  match l with
  | [] => false
  | _ :: _ => true
  end.

(* ------------------------------------------------------------------ *)
(** ** The reference tables of [__init__] *)

(** [self.taille_normale]: per sex, the age intervals in insertion order,
    each with its height range. *)
Definition taille_normale : list (string * list ((Z * Z) * (Z * Z))) :=
  [ ("homme"%string,
      [ ((0, 2), (50, 90));
        ((2, 5), (85, 115));
        ((5, 10), (105, 145));
        ((10, 15), (130, 180));
        ((15, 20), (155, 200));
        ((20, 150), (150, 210)) ]%Z);
    ("femme"%string,
      [ ((0, 2), (48, 88));
        ((2, 5), (83, 112));
        ((5, 10), (103, 142));
        ((10, 15), (130, 175));
        ((15, 20), (150, 185));
        ((20, 150), (145, 195)) ]%Z) ].

(** [self.ratios_normaux] *)
Definition ratios_normaux : list (string * (Q * Q)) :=
  [ ("tour_taille_taille"%string, (0.35, 0.55));
    ("envergure_taille"%string, (0.98, 1.06));
    ("longueur_jambe_taille"%string, (0.45, 0.53)) ].

(** Dictionary lookup by a string key; [None] when the key is absent. *)
Fixpoint chercher {V : Type} (cle : string) (dict : list (string * V))
  : option V :=
  match dict with
  | [] => None
  | (k, v) :: reste => if String.eqb cle k then Some v else chercher cle reste
  end.

(** [dict[cle]]: raises [KeyError] when the key is absent. *)
Definition indexer {V : Type} (cle : string) (dict : list (string * V))
  : Res V :=
  match chercher cle dict with
  | Some v => Ok v
  | None => Raise (KeyError cle)
  end.

(* ------------------------------------------------------------------ *)
(** ** The two private helpers *)

(** The [for] loop of [_obtenir_plage_taille]: the first interval with
    [age_min <= age < age_max]. *)
Fixpoint parcourir_plages (a : Z) (plages : list ((Z * Z) * (Z * Z)))
  : option (Z * Z) :=
  match plages with
  | [] => None
  | ((age_min, age_max), (taille_min, taille_max)) :: reste =>
      if andb (age_min <=? a)%Z (a <? age_max)%Z
      then Some (taille_min, taille_max)
      else parcourir_plages a reste
  end.

(** [_obtenir_plage_taille(age, sexe)]; [None] is the Python [None]. *)
Definition _obtenir_plage_taille (a : Z) (s : string) : option (Z * Z) :=
  match chercher s taille_normale with
  | None => None
  | Some plages => parcourir_plages a plages
  end.

(** [_estimer_poids_enfant(age, taille, sexe)] *)
Definition _estimer_poids_enfant (a : Z) (t : Q) (s : string) : Q :=
  if (a <? 2)%Z then inject_Z (a * 3 + 7)
  else if (a <? 12)%Z then inject_Z (a * 2 + 8)
  else 19 * Py.carre (t / 100).

(* ------------------------------------------------------------------ *)
(** ** [valider_donnees] *)

(** [champs_requis = ['age', 'sexe', 'taille', 'poids']] *)
Definition champs_requis : list string :=
  [ "age"; "sexe"; "taille"; "poids" ]%string.

Definition est_none {A : Type} (o : option A) : bool :=
  match o with
  | None => true
  | Some _ => false
  end.

(** [champ not in donnees or donnees[champ] is None] *)
Definition champ_manquant (d : Donnees) (champ : string) : bool :=
  if String.eqb champ "age" then est_none (age d)
  else if String.eqb champ "sexe" then est_none (sexe d)
  else if String.eqb champ "taille" then est_none (taille d)
  else if String.eqb champ "poids" then est_none (poids d)
  else if String.eqb champ "tour_taille" then est_none (tour_taille d)
  else if String.eqb champ "envergure" then est_none (envergure d)
  else if String.eqb champ "longueur_jambe" then est_none (longueur_jambe d)
  else if String.eqb champ "taille_mere" then est_none (taille_mere d)
  else if String.eqb champ "taille_pere" then est_none (taille_pere d)
  else true.

(** [donnees[cle]] for a value that is used as a number or a string: raises
    when the key is absent. *)
Definition lire {A : Type} (cle : string) (o : option A) : Res A :=
  match o with
  | Some v => Ok v
  | None => Raise (KeyError cle)
  end.

(** ['cle' in donnees and donnees['cle']] for a numeric field. *)
Definition renseigne (o : option Q) : bool :=
  match o with
  | Some v => Py.truthy v
  | None => false
  end.

(** Body of the loop over [champs_requis]. *)
Definition verifier_champ (d : Donnees) (st : Etat) (champ : string) : Etat :=
  if champ_manquant d champ
  then ajouter_erreur (ChampManquant champ) 25 st
  else st.

(** Step 0, the loop over [champs_requis]. *)
Definition verifier_champs_requis (d : Donnees) (st : Etat) : Etat :=
  fold_left (verifier_champ d) champs_requis st.

(** Step 1, [if age < 0 or age > 120]. *)
Definition verifier_age (a : Z) (st : Etat) : Etat :=
  if orb (a <? 0)%Z (a >? 120)%Z
  then ajouter_erreur (AgeInvalide a) 20 st
  else st.

(** Step 1, [if sexe not in ['homme', 'femme']]. *)
Definition verifier_sexe (s : string) (st : Etat) : Etat :=
  if negb (Py.dans s [ "homme"; "femme" ]%string)
  then ajouter_erreur (SexeInvalide s) 20 st
  else st.

(** Step 1, [if taille <= 0 or taille > 300]. *)
Definition verifier_taille (t : Q) (st : Etat) : Etat :=
  if orb (Py.le t 0) (Py.gt t 300)
  then ajouter_erreur (TailleInvalide t) 20 st
  else st.

(** Step 1, [if poids <= 0 or poids > 500]. *)
Definition verifier_poids (p : Q) (st : Etat) : Etat :=
  if orb (Py.le p 0) (Py.gt p 500)
  then ajouter_erreur (PoidsInvalide p) 20 st
  else st.

(** Step 2, height against the range of the age and sex. *)
Definition verifier_taille_age (a : Z) (s : string) (t : Q) (st : Etat)
  : Etat :=
  match _obtenir_plage_taille a s with
  | Some (min_taille, max_taille) =>
      if orb (Py.lt t (inject_Z min_taille)) (Py.gt t (inject_Z max_taille))
      then ajouter_erreur (TailleIncoherente s a t min_taille max_taille) 15 st
      else st
  | None => st
  end.

(** Step 3, body-mass index. *)
Definition verifier_imc (p t : Q) (st : Etat) : Res Etat :=
  imc <- div p (Py.carre (t / 100)) ;;
  if orb (Py.lt imc 10) (Py.gt imc 50)
  then Ok (ajouter_erreur (IMCExtreme imc p t) 15 st)
  else if orb (Py.lt imc 13) (Py.gt imc 40)
  then Ok (ajouter_avertissement (IMCInhabituel imc) 5 st)
  else Ok st.

(** Step 4, waist over height. *)
Definition verifier_ratio_tour_taille (d : Donnees) (t : Q) (st : Etat)
  : Res Etat :=
  if renseigne (tour_taille d) then
    tt <- lire "tour_taille" (tour_taille d) ;;
    ratio_tt <- div tt t ;;
    bornes <- indexer "tour_taille_taille" ratios_normaux ;;
    let (min_r, max_r) := (bornes : Q * Q) in
    if orb (Py.lt ratio_tt min_r) (Py.gt ratio_tt max_r)
    then Ok (ajouter_erreur (RatioTourTaille ratio_tt min_r max_r) 10 st)
    else Ok st
  else Ok st.

(** Step 4, arm span over height, with its tolerance of 0.1. *)
Definition verifier_ratio_envergure (d : Donnees) (t : Q) (st : Etat)
  : Res Etat :=
  if renseigne (envergure d) then
    env <- lire "envergure" (envergure d) ;;
    ratio_env <- div env t ;;
    bornes <- indexer "envergure_taille" ratios_normaux ;;
    let (min_r, max_r) := (bornes : Q * Q) in
    if orb (Py.lt ratio_env (min_r - 0.1)) (Py.gt ratio_env (max_r + 0.1))
    then Ok (ajouter_erreur (RatioEnvergure ratio_env min_r max_r) 10 st)
    else if orb (Py.lt ratio_env min_r) (Py.gt ratio_env max_r)
    then Ok (ajouter_avertissement (EnvergureAtypique env t) 3 st)
    else Ok st
  else Ok st.

(** Step 4, leg length over height. *)
Definition verifier_ratio_jambe (d : Donnees) (t : Q) (st : Etat)
  : Res Etat :=
  if renseigne (longueur_jambe d) then
    lj <- lire "longueur_jambe" (longueur_jambe d) ;;
    ratio_jambe <- div lj t ;;
    bornes <- indexer "longueur_jambe_taille" ratios_normaux ;;
    let (min_r, max_r) := (bornes : Q * Q) in
    if orb (Py.lt ratio_jambe min_r) (Py.gt ratio_jambe max_r)
    then Ok (ajouter_erreur (RatioJambe ratio_jambe min_r max_r) 10 st)
    else Ok st
  else Ok st.

(** Step 5, weight against height for adults. *)
Definition verifier_poids_adulte (a : Z) (t p : Q) (st : Etat) : Etat :=
  if (a >=? 18)%Z then
    let imc_min_sain := 16 in
    let imc_max_sain := 35 in
    let poids_min := imc_min_sain * Py.carre (t / 100) in
    let poids_max := imc_max_sain * Py.carre (t / 100) in
    if orb (Py.lt p (poids_min * 0.8)) (Py.gt p (poids_max * 1.2))
    then ajouter_erreur (PoidsTailleExtreme t p poids_min poids_max) 10 st
    else st
  else st.

(** Step 6, weight against age and height for children. *)
Definition verifier_poids_enfant (a : Z) (t p : Q) (s : string) (st : Etat)
  : Res Etat :=
  if (a <? 18)%Z then
    let poids_attendu := _estimer_poids_enfant a t s in
    if Py.truthy poids_attendu then
      diff_poids <- div (Qabs (p - poids_attendu)) poids_attendu ;;
      if Py.gt diff_poids 0.5
      then Ok (ajouter_avertissement (PoidsInhabituel p poids_attendu) 5 st)
      else Ok st
    else Ok st
  else Ok st.

(** Step 7, waist against arm span. *)
Definition verifier_tour_taille_envergure (d : Donnees) (st : Etat)
  : Res Etat :=
  if andb (renseigne (tour_taille d)) (renseigne (envergure d)) then
    tt <- lire "tour_taille" (tour_taille d) ;;
    env <- lire "envergure" (envergure d) ;;
    if Py.gt tt env
    then Ok (ajouter_erreur (TourTailleSupEnvergure tt env) 10 st)
    else Ok st
  else Ok st.

(** Step 8, leg length against arm span. *)
Definition verifier_jambe_envergure (d : Donnees) (st : Etat) : Res Etat :=
  if andb (renseigne (longueur_jambe d)) (renseigne (envergure d)) then
    lj <- lire "longueur_jambe" (longueur_jambe d) ;;
    env <- lire "envergure" (envergure d) ;;
    if Py.gt lj env
    then Ok (ajouter_erreur (JambeSupEnvergure lj env) 10 st)
    else Ok st
  else Ok st.

(** The early [return ValidationResult(False, erreurs, avertissements,
    max(0, score))]. *)
Definition retour_anticipe (st : Etat) : ValidationResult :=
  {| est_valide := false;
     erreurs := e_erreurs st;
     avertissements := e_avertissements st;
     score_coherence := Py.max 0 (e_score st) |}.

(** The final [est_valide = len(erreurs) == 0; score = max(0, min(100,
    score)); return ValidationResult(...)]. *)
Definition retour_final (st : Etat) : ValidationResult :=
  {| est_valide := Nat.eqb (length (e_erreurs st)) 0;
     erreurs := e_erreurs st;
     avertissements := e_avertissements st;
     score_coherence := Py.max 0 (Py.min 100 (e_score st)) |}.

(** Steps 1 of [valider_donnees]: the four base-value checks. *)
Definition verifier_valeurs_de_base (a : Z) (s : string) (t p : Q)
  (st : Etat) : Etat :=
  let st := verifier_age a st in
  let st := verifier_sexe s st in
  let st := verifier_taille t st in
  verifier_poids p st.

(** Steps 2 to 8 of [valider_donnees], in the order of the source. *)
Definition controles_de_coherence (d : Donnees) (a : Z) (s : string)
  (t p : Q) (st : Etat) : Res Etat :=
  let st := verifier_taille_age a s t st in
  st <- verifier_imc p t st ;;
  st <- verifier_ratio_tour_taille d t st ;;
  st <- verifier_ratio_envergure d t st ;;
  st <- verifier_ratio_jambe d t st ;;
  let st := verifier_poids_adulte a t p st in
  st <- verifier_poids_enfant a t p s st ;;
  st <- verifier_tour_taille_envergure d st ;;
  verifier_jambe_envergure d st.

(** [valider_donnees(donnees)] *)
Definition valider_donnees (d : Donnees) : Res ValidationResult :=
  let st := verifier_champs_requis d etat_initial in
  if non_vide (e_erreurs st) then Ok (retour_anticipe st)
  else
    a <- lire "age" (age d) ;;
    s <- lire "sexe" (sexe d) ;;
    let s := Py.lower s in
    t <- lire "taille" (taille d) ;;
    p <- lire "poids" (poids d) ;;
    let st := verifier_valeurs_de_base a s t p st in
    if non_vide (e_erreurs st) then Ok (retour_anticipe st)
    else
      st <- controles_de_coherence d a s t p st ;;
      Ok (retour_final st).

(* ------------------------------------------------------------------ *)
(** ** The five records of [exemple_utilisation] *)

Definition donnees_vides : Donnees :=
  {| age := None; sexe := None; taille := None; poids := None;
     tour_taille := None; envergure := None; longueur_jambe := None;
     taille_mere := None; taille_pere := None |}.

Definition mesures (a : Z) (s : string) (t p : Q)
  (tt env lj : option Q) : Donnees :=
  {| age := Some a; sexe := Some s; taille := Some t; poids := Some p;
     tour_taille := tt; envergure := env; longueur_jambe := lj;
     taille_mere := None; taille_pere := None |}.

Definition donnees1 : Donnees :=
  mesures 25 "homme" 178 75 (Some 85) (Some 180) None.
Definition donnees2 : Donnees :=
  mesures 8 "femme" 180 30 None None None.
Definition donnees3 : Donnees :=
  mesures 30 "homme" 180 50 None None None.
Definition donnees5 : Donnees :=
  mesures 28 "homme" 175 70 (Some 200) (Some 178) (Some 180).

(* ------------------------------------------------------------------ *)
(** ** Vocabulary of the statements *)

(** The required keys that are absent or null, in the order of
    [champs_requis]. *)
Definition champs_manquants (d : Donnees) : list string :=
  filter (champ_manquant d) champs_requis.

(** The four conditions under which Step 1 appends nothing. *)
Definition valeurs_valides (a : Z) (s : string) (t p : Q) : Prop :=
  (0 <= a <= 120)%Z
  /\ (s = "homme"%string \/ s = "femme"%string)
  /\ (0 < t /\ t <= 300)
  /\ (0 < p /\ p <= 500).

(** [Parcours d r]: [r] is what [valider_donnees] returns on [d], with the
    return statement that produced it: the one after the loop over the
    required fields, the one after Step 1, or the last one. *)
Inductive Parcours (d : Donnees) : ValidationResult -> Prop :=
| retour_champs_manquants :
    champs_manquants d <> [] ->
    Parcours d (retour_anticipe (verifier_champs_requis d etat_initial))
| retour_valeurs_invalides (a : Z) (s : string) (t p : Q) :
    age d = Some a -> sexe d = Some s ->
    taille d = Some t -> poids d = Some p ->
    ~ valeurs_valides a (Py.lower s) t p ->
    Parcours d
      (retour_anticipe
         (verifier_valeurs_de_base a (Py.lower s) t p etat_initial))
| retour_complet (a : Z) (s : string) (t p : Q) (st : Etat) :
    age d = Some a -> sexe d = Some s ->
    taille d = Some t -> poids d = Some p ->
    valeurs_valides a (Py.lower s) t p ->
    controles_de_coherence d a (Py.lower s) t p etat_initial = Ok st ->
    Parcours d (retour_final st).

(** [age_min <= age < age_max] *)
Definition contient (i : Z * Z) (a : Z) : Prop :=
  (fst i <= a < snd i)%Z.

(** Intervals that follow one another from [lo] to [hi]: each is non-empty
    and starts where the previous one ends. *)
Fixpoint enchainees (lo hi : Z) (l : list (Z * Z)) : Prop :=
  match l with
  | [] => lo = hi
  | (x, y) :: l' => x = lo /\ (x < y)%Z /\ enchainees y hi l'
  end.

(** The cross-checks of Steps 7 and 8 with presence alone as their
    precondition, as the specification words them: for a record that reaches
    Step 7, whenever both measurements are present, the error is among the
    errors of the result iff the first measurement exceeds the arm span. *)
Definition croisement_sur_simple_presence : Prop :=
  forall (d : Donnees) (a : Z) (s : string) (t p : Q),
    age d = Some a -> sexe d = Some s ->
    taille d = Some t -> poids d = Some p ->
    valeurs_valides a (Py.lower s) t p ->
    exists r,
      valider_donnees d = Ok r
      /\ (forall tt env,
            tour_taille d = Some tt -> envergure d = Some env ->
            (In (TourTailleSupEnvergure tt env) (erreurs r) <-> env < tt))
      /\ (forall lj env,
            longueur_jambe d = Some lj -> envergure d = Some env ->
            (In (JambeSupEnvergure lj env) (erreurs r) <-> env < lj)).

(** A record whose arm span is present and zero: waist 85 exceeds span 0,
    yet the result holds no error. *)
Definition donnees_envergure_nulle : Donnees :=
  mesures 25 "homme" 178 75 (Some 85) (Some 0) None.

(* ------------------------------------------------------------------ *)
(** ** Steps 2 to 8, rule by rule

    Every rule of Steps 2 to 8 leaves the state alone, or appends one error
    with its deduction, or appends one warning with its deduction.  The
    outcome of a rule is a [Verdict]; the section [Raffinement] shows that
    each step of the code applies the verdict of its rule, whatever the
    incoming state.  The verdicts serve the proofs only: no statement of a
    property of [valider_donnees] below mentions them. *)

Module Regles.

Inductive Verdict : Type :=
| Rien
| Erreur (m : Message) (pts : Q)
| Avertissement (m : Message) (pts : Q).

Definition appliquer (st : Etat) (v : Verdict) : Etat :=
  match v with
  | Rien => st
  | Erreur m pts => ajouter_erreur m pts st
  | Avertissement m pts => ajouter_avertissement m pts st
  end.

Definition erreur_de (v : Verdict) : list Message :=
  match v with
  | Erreur m _ => [m]
  | _ => []
  end.

Definition avertissement_de (v : Verdict) : list Message :=
  match v with
  | Avertissement m _ => [m]
  | _ => []
  end.

Definition taille_age (a : Z) (s : string) (t : Q) : Verdict :=
  match _obtenir_plage_taille a s with
  | Some (min_taille, max_taille) =>
      if orb (Py.lt t (inject_Z min_taille)) (Py.gt t (inject_Z max_taille))
      then Erreur (TailleIncoherente s a t min_taille max_taille) 15
      else Rien
  | None => Rien
  end.

Definition imc (p t : Q) : Verdict :=
  let i := p / Py.carre (t / 100) in
  if orb (Py.lt i 10) (Py.gt i 50) then Erreur (IMCExtreme i p t) 15
  else if orb (Py.lt i 13) (Py.gt i 40) then Avertissement (IMCInhabituel i) 5
  else Rien.

Definition ratio_tour_taille (tt : option Q) (t : Q) : Verdict :=
  match tt with
  | Some v =>
      if Py.truthy v then
        if orb (Py.lt (v / t) 0.35) (Py.gt (v / t) 0.55)
        then Erreur (RatioTourTaille (v / t) 0.35 0.55) 10
        else Rien
      else Rien
  | None => Rien
  end.

Definition ratio_envergure (env : option Q) (t : Q) : Verdict :=
  match env with
  | Some v =>
      if Py.truthy v then
        if orb (Py.lt (v / t) (0.98 - 0.1)) (Py.gt (v / t) (1.06 + 0.1))
        then Erreur (RatioEnvergure (v / t) 0.98 1.06) 10
        else if orb (Py.lt (v / t) 0.98) (Py.gt (v / t) 1.06)
        then Avertissement (EnvergureAtypique v t) 3
        else Rien
      else Rien
  | None => Rien
  end.

Definition ratio_jambe (lj : option Q) (t : Q) : Verdict :=
  match lj with
  | Some v =>
      if Py.truthy v then
        if orb (Py.lt (v / t) 0.45) (Py.gt (v / t) 0.53)
        then Erreur (RatioJambe (v / t) 0.45 0.53) 10
        else Rien
      else Rien
  | None => Rien
  end.

Definition poids_adulte (a : Z) (t p : Q) : Verdict :=
  if (a >=? 18)%Z then
    if orb (Py.lt p (16 * Py.carre (t / 100) * 0.8))
           (Py.gt p (35 * Py.carre (t / 100) * 1.2))
    then Erreur (PoidsTailleExtreme t p (16 * Py.carre (t / 100))
                   (35 * Py.carre (t / 100))) 10
    else Rien
  else Rien.

Definition poids_enfant (a : Z) (t p : Q) (s : string) : Verdict :=
  if (a <? 18)%Z then
    let attendu := _estimer_poids_enfant a t s in
    if Py.truthy attendu then
      if Py.gt (Qabs (p - attendu) / attendu) 0.5
      then Avertissement (PoidsInhabituel p attendu) 5
      else Rien
    else Rien
  else Rien.

(** Steps 7 and 8 share their shape: two measurements, both present and
    non-zero, the first larger than the second. *)
Definition depasse (msg : Q -> Q -> Message) (x env : option Q) : Verdict :=
  match x, env with
  | Some vx, Some ve =>
      if andb (Py.truthy vx) (Py.truthy ve) then
        if Py.gt vx ve then Erreur (msg vx ve) 10 else Rien
      else Rien
  | _, _ => Rien
  end.

(** The verdicts of Steps 2 to 8, in the order of the source. *)
Definition verdicts (d : Donnees) (a : Z) (s : string) (t p : Q)
  : list Verdict :=
  [ taille_age a s t;
    imc p t;
    ratio_tour_taille (tour_taille d) t;
    ratio_envergure (envergure d) t;
    ratio_jambe (longueur_jambe d) t;
    poids_adulte a t p;
    poids_enfant a t p s;
    depasse TourTailleSupEnvergure (tour_taille d) (envergure d);
    depasse JambeSupEnvergure (longueur_jambe d) (envergure d) ].

Definition appliquer_tous (vs : list Verdict) (st : Etat) : Etat :=
  fold_left appliquer vs st.

(** Position, in [verdicts], of the rule that builds the message; 9 for the
    messages of Steps 0 and 1. *)
Definition rang (m : Message) : nat :=
  match m with
  | TailleIncoherente _ _ _ _ _ => 0
  | IMCExtreme _ _ _ | IMCInhabituel _ => 1
  | RatioTourTaille _ _ _ => 2
  | RatioEnvergure _ _ _ | EnvergureAtypique _ _ => 3
  | RatioJambe _ _ _ => 4
  | PoidsTailleExtreme _ _ _ _ => 5
  | PoidsInhabituel _ _ => 6
  | TourTailleSupEnvergure _ _ => 7
  | JambeSupEnvergure _ _ => 8
  | _ => 9
  end.

Definition message_de (v : Verdict) : option Message :=
  match v with
  | Rien => None
  | Erreur m _ | Avertissement m _ => Some m
  end.

End Regles.

(* ------------------------------------------------------------------ *)
(** ** The deduction of each message *)

(** The number of points [valider_donnees] deducts where it appends the
    message: the literal of the [score -= ...] that follows the [append]. *)
Definition penalite (m : Message) : Z :=
  match m with
  | ChampManquant _ => 25
  | AgeInvalide _ | SexeInvalide _ | TailleInvalide _ | PoidsInvalide _ => 20
  | TailleIncoherente _ _ _ _ _ => 15
  | IMCExtreme _ _ _ => 15
  | IMCInhabituel _ => 5
  | RatioTourTaille _ _ _ => 10
  | RatioEnvergure _ _ _ => 10
  | EnvergureAtypique _ _ => 3
  | RatioJambe _ _ _ => 10
  | PoidsTailleExtreme _ _ _ _ => 10
  | PoidsInhabituel _ _ => 5
  | TourTailleSupEnvergure _ _ => 10
  | JambeSupEnvergure _ _ => 10
  end%Z.

(** The deductions of a list of messages, added up. *)
Fixpoint total_penalites (l : list Message) : Z :=
  match l with
  | [] => 0
  | m :: l' => penalite m + total_penalites l'
  end%Z.

(** Deduction carried by a verdict. *)
Definition points (v : Regles.Verdict) : Q :=
  match v with
  | Regles.Rien => 0
  | Regles.Erreur _ pts | Regles.Avertissement _ pts => pts
  end.

(** The deductions of a list of verdicts, added up. *)
Fixpoint total_points (vs : list Regles.Verdict) : Q :=
  match vs with
  | [] => 0
  | v :: vs' => points v + total_points vs'
  end.

(** The deduction of a verdict is the deduction of its message. *)
Definition points_du_message (v : Regles.Verdict) : Prop :=
  points v
  = inject_Z (total_penalites (Regles.erreur_de v ++ Regles.avertissement_de v)).

(** The deduction of a verdict is at most [b]. *)
Definition points_bornes (b : Q) (v : Regles.Verdict) : Prop :=
  0 <= points v /\ points v <= b.

(** An error of a verdict costs 10 points at least, a warning 5 at most. *)
Definition gravite_du_verdict (v : Regles.Verdict) : Prop :=
  Forall (fun m => (10 <= penalite m)%Z) (Regles.erreur_de v)
  /\ Forall (fun m => (0 < penalite m <= 5)%Z) (Regles.avertissement_de v).

(* ------------------------------------------------------------------ *)
(** ** [afficher_resultat]

    The function only prints; its embedding returns the lines it prints, in
    order, one constructor per [print] call (a [print] inside a loop gives
    one line per iteration).  The text of a line is not modelled, only which
    [print] produced it and the values it interpolates. *)

Inductive Ligne : Type :=
| LigneBandeau (valide : bool)
| LigneScore (score : Q)
| LigneTitreErreurs (n : nat)
| LigneErreur (m : Message)
| LigneTitreAvertissements (n : nat)
| LigneAvertissement (m : Message)
| LigneToutCoherent.

(** [afficher_resultat(resultat)] *)
Definition afficher_resultat (resultat : ValidationResult) : list Ligne :=
  [ LigneBandeau (est_valide resultat);
    LigneScore (score_coherence resultat) ]
  ++ (if non_vide (erreurs resultat)
      then LigneTitreErreurs (length (erreurs resultat))
           :: map LigneErreur (erreurs resultat)
      else [])
  ++ (if non_vide (avertissements resultat)
      then LigneTitreAvertissements (length (avertissements resultat))
           :: map LigneAvertissement (avertissements resultat)
      else [])
  ++ (if andb (negb (non_vide (erreurs resultat)))
              (negb (non_vide (avertissements resultat)))
      then [ LigneToutCoherent ]
      else []).

(** Two records hold the same measurements when they agree on every key
    but the letter case of [sexe] and the two parental heights. *)
Definition memes_mesures (d d' : Donnees) : Prop :=
  age d = age d'
  /\ option_map Py.lower (sexe d) = option_map Py.lower (sexe d')
  /\ taille d = taille d'
  /\ poids d = poids d'
  /\ tour_taille d = tour_taille d'
  /\ envergure d = envergure d'
  /\ longueur_jambe d = longueur_jambe d'.

(* ------------------------------------------------------------------ *)
(** ** Comparisons as propositions *)

Lemma lt_spec (a b : Q) : Py.lt a b = true <-> a < b.
Proof.
  unfold Py.lt. rewrite negb_true_iff.
  split; intro H.
  - apply Qnot_le_lt. intro Hle.
    apply Qle_bool_iff in Hle. congruence.
  - destruct (Qle_bool b a) eqn:E; [|reflexivity].
    apply Qle_bool_iff in E. exfalso. apply (Qlt_not_le _ _ H E).
Qed.

Lemma lt_false (a b : Q) : Py.lt a b = false <-> b <= a.
Proof.
  unfold Py.lt. rewrite negb_false_iff. apply Qle_bool_iff.
Qed.

Lemma le_spec (a b : Q) : Py.le a b = true <-> a <= b.
Proof. apply Qle_bool_iff. Qed.

Lemma le_false (a b : Q) : Py.le a b = false <-> b < a.
Proof.
  unfold Py.le. split; intro H.
  - apply Qnot_le_lt. intro Hle. apply Qle_bool_iff in Hle. congruence.
  - destruct (Qle_bool a b) eqn:E; [|reflexivity].
    apply Qle_bool_iff in E. exfalso. apply (Qlt_not_le _ _ H E).
Qed.

Lemma gt_spec (a b : Q) : Py.gt a b = true <-> b < a.
Proof. apply lt_spec. Qed.

Lemma gt_false (a b : Q) : Py.gt a b = false <-> a <= b.
Proof. apply lt_false. Qed.

Lemma truthy_spec (a : Q) : Py.truthy a = true <-> ~ a == 0.
Proof.
  unfold Py.truthy. rewrite negb_true_iff. split; intro H.
  - intro E. apply Qeq_bool_iff in E. congruence.
  - destruct (Qeq_bool a 0) eqn:E; [|reflexivity].
    apply Qeq_bool_iff in E. contradiction.
Qed.

Lemma truthy_false (a : Q) : Py.truthy a = false <-> a == 0.
Proof.
  unfold Py.truthy. rewrite negb_false_iff. apply Qeq_bool_iff.
Qed.

(** Turns every boolean comparison of the context and of the goal into the
    proposition it decides. *)
Ltac reflechir :=
  repeat match goal with
  | H : (_ || _)%bool = true |- _ => apply orb_true_iff in H
  | H : (_ || _)%bool = false |- _ => apply orb_false_iff in H; destruct H
  | H : (_ && _)%bool = true |- _ => apply andb_true_iff in H; destruct H
  | H : (_ && _)%bool = false |- _ => apply andb_false_iff in H
  | H : negb _ = true |- _ => apply negb_true_iff in H
  | H : negb _ = false |- _ => apply negb_false_iff in H
  | H : Py.lt _ _ = true |- _ => apply lt_spec in H
  | H : Py.lt _ _ = false |- _ => apply lt_false in H
  | H : Py.le _ _ = true |- _ => apply le_spec in H
  | H : Py.le _ _ = false |- _ => apply le_false in H
  | H : Py.gt _ _ = true |- _ => apply gt_spec in H
  | H : Py.gt _ _ = false |- _ => apply gt_false in H
  | H : Py.truthy _ = true |- _ => apply truthy_spec in H
  | H : Py.truthy _ = false |- _ => apply truthy_false in H
  | H : (_ <? _)%Z = true |- _ => apply Z.ltb_lt in H
  | H : (_ <? _)%Z = false |- _ => apply Z.ltb_ge in H
  | H : (_ <=? _)%Z = true |- _ => apply Z.leb_le in H
  | H : (_ <=? _)%Z = false |- _ => apply Z.leb_gt in H
  | H : (_ >? _)%Z = true |- _ => rewrite Z.gtb_ltb in H
  | H : (_ >? _)%Z = false |- _ => rewrite Z.gtb_ltb in H
  | H : (_ >=? _)%Z = true |- _ => rewrite Z.geb_leb in H
  | H : (_ >=? _)%Z = false |- _ => rewrite Z.geb_leb in H
  end.

Lemma max_zero_bornes (x : Q) : x <= 100 -> 0 <= Py.max 0 x <= 100.
Proof.
  intro Hx. unfold Py.max.
  destruct (Py.lt 0 x) eqn:E; reflechir; lra.
Qed.

Lemma max_min_bornes (x : Q) : 0 <= Py.max 0 (Py.min 100 x) <= 100.
Proof.
  apply max_zero_bornes. unfold Py.min.
  destruct (Py.lt x 100) eqn:E; reflechir; lra.
Qed.

Lemma carre_pos (x : Q) : ~ x == 0 -> 0 < Py.carre x.
Proof.
  intro Hx. unfold Py.carre. simpl.
  destruct (Qlt_le_dec 0 x) as [Hp|Hn].
  - nra.
  - assert (x < 0) by (apply Qle_lt_or_eq in Hn; destruct Hn; [assumption|contradiction]).
    nra.
Qed.

Lemma div_ok (a b : Q) : ~ b == 0 -> div a b = Ok (a / b).
Proof.
  intro Hb. unfold div.
  destruct (Qeq_bool b 0) eqn:E; [|reflexivity].
  apply Qeq_bool_iff in E. contradiction.
Qed.

(* ------------------------------------------------------------------ *)
(** ** Step 0: the required fields *)

Section Etape0.

Variable d : Donnees.

Lemma boucle_champs_erreurs (l : list string) (st : Etat) :
  e_erreurs (fold_left (verifier_champ d) l st)
  = e_erreurs st ++ map ChampManquant (filter (champ_manquant d) l).
Proof.
  revert st. induction l as [|c l IH]; intro st; simpl.
  - now rewrite app_nil_r.
  - rewrite IH. unfold verifier_champ.
    destruct (champ_manquant d c); simpl; [|reflexivity].
    now rewrite <- app_assoc.
Qed.

Lemma boucle_champs_avertissements (l : list string) (st : Etat) :
  e_avertissements (fold_left (verifier_champ d) l st) = e_avertissements st.
Proof.
  revert st. induction l as [|c l IH]; intro st; simpl; [reflexivity|].
  rewrite IH. unfold verifier_champ.
  now destruct (champ_manquant d c).
Qed.

Lemma boucle_champs_score (l : list string) (st : Etat) :
  e_score (fold_left (verifier_champ d) l st)
  == e_score st
     - 25 * inject_Z (Z.of_nat (length (filter (champ_manquant d) l))).
Proof.
  revert st. induction l as [|c l IH]; intro st; simpl.
  - ring.
  - rewrite IH. unfold verifier_champ.
    destruct (champ_manquant d c); [|reflexivity].
    cbn [ajouter_erreur e_score length].
    rewrite Nat2Z.inj_succ, <- Z.add_1_r, inject_Z_plus. ring.
Qed.

Lemma champs_requis_erreurs :
  e_erreurs (verifier_champs_requis d etat_initial)
  = map ChampManquant (champs_manquants d).
Proof. apply boucle_champs_erreurs. Qed.

Lemma champs_requis_avertissements :
  e_avertissements (verifier_champs_requis d etat_initial) = [].
Proof. apply boucle_champs_avertissements. Qed.

Lemma champs_requis_score :
  e_score (verifier_champs_requis d etat_initial)
  == 100 - 25 * inject_Z (Z.of_nat (length (champs_manquants d))).
Proof. apply boucle_champs_score. Qed.

(** No key is missing exactly when the four required fields hold a value. *)
Lemma aucun_champ_manquant :
  champs_manquants d = [] <->
  exists a s t p,
    age d = Some a /\ sexe d = Some s /\ taille d = Some t /\ poids d = Some p.
Proof.
  unfold champs_manquants, champs_requis. cbn [filter].
  unfold champ_manquant. cbn [String.eqb Ascii.eqb Bool.eqb].
  destruct (age d) as [a|], (sexe d) as [s|], (taille d) as [t|],
    (poids d) as [p|]; cbn [est_none];
    (split; [intro H | intros (a' & s' & t' & p' & Ea & Es & Et & Ep)]);
    try discriminate.
  - now exists a, s, t, p.
  - reflexivity.
Qed.

(** With no missing key the loop leaves the initial state as it is. *)
Lemma champs_requis_neutre :
  champs_manquants d = [] -> verifier_champs_requis d etat_initial = etat_initial.
Proof.
  intro H. apply aucun_champ_manquant in H.
  destruct H as (a & s & t & p & Ea & Es & Et & Ep).
  unfold verifier_champs_requis. cbn. unfold verifier_champ, champ_manquant.
  cbn. now rewrite Ea, Es, Et, Ep.
Qed.

End Etape0.

(* ------------------------------------------------------------------ *)
(** ** Step 1: the base values *)

Lemma dans_homme_femme (s : string) :
  Py.dans s [ "homme"; "femme" ]%string = true
  <-> s = "homme"%string \/ s = "femme"%string.
Proof.
  unfold Py.dans. cbn. rewrite !orb_true_iff, !String.eqb_eq.
  intuition discriminate.
Qed.

Section Etape1.

Variables (a : Z) (s : string) (t p : Q).

Lemma valeurs_valides_neutre (st : Etat) :
  valeurs_valides a s t p -> verifier_valeurs_de_base a s t p st = st.
Proof.
  intros (Ha & Hs & Ht & Hp).
  unfold verifier_valeurs_de_base, verifier_age, verifier_sexe,
    verifier_taille, verifier_poids.
  replace ((a <? 0)%Z || (a >? 120)%Z)%bool with false
    by (symmetry; apply orb_false_iff; rewrite Z.gtb_ltb; split;
        [apply Z.ltb_ge | apply Z.ltb_ge]; lia).
  apply dans_homme_femme in Hs. rewrite Hs. cbn [negb].
  replace (Py.le t 0 || Py.gt t 300)%bool with false
    by (symmetry; apply orb_false_iff; split;
        [apply le_false | apply gt_false]; tauto).
  replace (Py.le p 0 || Py.gt p 500)%bool with false
    by (symmetry; apply orb_false_iff; split;
        [apply le_false | apply gt_false]; tauto).
  reflexivity.
Qed.

(** Each base check extends the error list; so an empty list after Step 1
    means that no check fired. *)
Lemma valeurs_de_base_sans_erreur (st : Etat) :
  e_erreurs (verifier_valeurs_de_base a s t p st) = [] ->
  valeurs_valides a s t p.
Proof.
  unfold verifier_valeurs_de_base, verifier_age, verifier_sexe,
    verifier_taille, verifier_poids, valeurs_valides.
  destruct ((a <? 0)%Z || (a >? 120)%Z)%bool eqn:Ea;
  destruct (negb (Py.dans s [ "homme"; "femme" ]%string)) eqn:Es;
  destruct (Py.le t 0 || Py.gt t 300)%bool eqn:Et;
  destruct (Py.le p 0 || Py.gt p 500)%bool eqn:Ep;
  cbn; intro H;
  try (apply app_eq_nil in H; destruct H; discriminate).
  apply negb_false_iff, dans_homme_femme in Es.
  reflechir. repeat split; try assumption; lia.
Qed.

Lemma valeurs_de_base_avertissements (st : Etat) :
  e_avertissements (verifier_valeurs_de_base a s t p st) = e_avertissements st.
Proof.
  unfold verifier_valeurs_de_base, verifier_age, verifier_sexe,
    verifier_taille, verifier_poids.
  destruct ((a <? 0)%Z || (a >? 120)%Z)%bool;
  destruct (negb (Py.dans s [ "homme"; "femme" ]%string));
  destruct (Py.le t 0 || Py.gt t 300)%bool;
  destruct (Py.le p 0 || Py.gt p 500)%bool; reflexivity.
Qed.

Lemma valeurs_de_base_score (st : Etat) :
  e_score (verifier_valeurs_de_base a s t p st) <= e_score st.
Proof.
  unfold verifier_valeurs_de_base, verifier_age, verifier_sexe,
    verifier_taille, verifier_poids.
  destruct ((a <? 0)%Z || (a >? 120)%Z)%bool;
  destruct (negb (Py.dans s [ "homme"; "femme" ]%string));
  destruct (Py.le t 0 || Py.gt t 300)%bool;
  destruct (Py.le p 0 || Py.gt p 500)%bool; cbn; lra.
Qed.

End Etape1.

Lemma valeurs_valides_taille_non_nulle (a : Z) (s : string) (t p : Q) :
  valeurs_valides a s t p -> ~ t == 0.
Proof.
  intros (_ & _ & (Ht & _) & _) E. rewrite E in Ht. discriminate.
Qed.

(* ------------------------------------------------------------------ *)
(** ** Each step applies the verdict of its rule *)

Section Raffinement.

Import Regles.

Variables (d : Donnees) (a : Z) (s : string) (t p : Q).
Hypothesis taille_non_nulle : ~ t == 0.

Lemma verifier_taille_age_regle (st : Etat) :
  verifier_taille_age a s t st = appliquer st (taille_age a s t).
Proof.
  unfold verifier_taille_age, taille_age.
  destruct (_obtenir_plage_taille a s) as [[mn mx]|]; [|reflexivity].
  now destruct (Py.lt t (inject_Z mn) || Py.gt t (inject_Z mx))%bool.
Qed.

Lemma carre_taille_non_nul : ~ Py.carre (t / 100) == 0.
Proof.
  assert (H : 0 < Py.carre (t / 100)).
  { apply carre_pos. intro E. apply taille_non_nulle.
    assert (E' : t == (t / 100) * 100) by (field; discriminate).
    rewrite E'. rewrite E. ring. }
  intro E. rewrite E in H. discriminate.
Qed.

Lemma verifier_imc_regle (st : Etat) :
  verifier_imc p t st = Ok (appliquer st (imc p t)).
Proof.
  unfold verifier_imc, imc.
  rewrite (div_ok _ _ carre_taille_non_nul). cbn [bind].
  destruct (Py.lt _ 10 || Py.gt _ 50)%bool; [reflexivity|].
  now destruct (Py.lt _ 13 || Py.gt _ 40)%bool.
Qed.

Lemma verifier_ratio_tour_taille_regle (st : Etat) :
  verifier_ratio_tour_taille d t st
  = Ok (appliquer st (ratio_tour_taille (tour_taille d) t)).
Proof.
  unfold verifier_ratio_tour_taille, ratio_tour_taille, renseigne.
  destruct (tour_taille d) as [v|]; [|reflexivity].
  destruct (Py.truthy v); [|reflexivity].
  cbn [lire bind]. rewrite (div_ok _ _ taille_non_nulle). cbn [bind].
  cbn [indexer chercher ratios_normaux String.eqb Ascii.eqb Bool.eqb bind].
  now destruct (Py.lt _ _ || Py.gt _ _)%bool.
Qed.

Lemma verifier_ratio_envergure_regle (st : Etat) :
  verifier_ratio_envergure d t st
  = Ok (appliquer st (ratio_envergure (envergure d) t)).
Proof.
  unfold verifier_ratio_envergure, ratio_envergure, renseigne.
  destruct (envergure d) as [v|]; [|reflexivity].
  destruct (Py.truthy v); [|reflexivity].
  cbn [lire bind]. rewrite (div_ok _ _ taille_non_nulle). cbn [bind].
  cbn [indexer chercher ratios_normaux String.eqb Ascii.eqb Bool.eqb bind].
  destruct (Py.lt _ (0.98 - 0.1) || Py.gt _ (1.06 + 0.1))%bool; [reflexivity|].
  now destruct (Py.lt _ 0.98 || Py.gt _ 1.06)%bool.
Qed.

Lemma verifier_ratio_jambe_regle (st : Etat) :
  verifier_ratio_jambe d t st
  = Ok (appliquer st (ratio_jambe (longueur_jambe d) t)).
Proof.
  unfold verifier_ratio_jambe, ratio_jambe, renseigne.
  destruct (longueur_jambe d) as [v|]; [|reflexivity].
  destruct (Py.truthy v); [|reflexivity].
  cbn [lire bind]. rewrite (div_ok _ _ taille_non_nulle). cbn [bind].
  cbn [indexer chercher ratios_normaux String.eqb Ascii.eqb Bool.eqb bind].
  now destruct (Py.lt _ _ || Py.gt _ _)%bool.
Qed.

Lemma verifier_poids_adulte_regle (st : Etat) :
  verifier_poids_adulte a t p st = appliquer st (poids_adulte a t p).
Proof.
  unfold verifier_poids_adulte, poids_adulte.
  destruct (a >=? 18)%Z; [|reflexivity].
  now destruct (Py.lt p _ || Py.gt p _)%bool.
Qed.

Lemma verifier_poids_enfant_regle (st : Etat) :
  verifier_poids_enfant a t p s st = Ok (appliquer st (poids_enfant a t p s)).
Proof.
  unfold verifier_poids_enfant, poids_enfant.
  destruct (a <? 18)%Z; [|reflexivity].
  cbv zeta.
  destruct (Py.truthy (_estimer_poids_enfant a t s)) eqn:E; [|reflexivity].
  apply truthy_spec in E. rewrite (div_ok _ _ E). cbn [bind].
  now destruct (Py.gt _ 0.5).
Qed.

Lemma verifier_tour_taille_envergure_regle (st : Etat) :
  verifier_tour_taille_envergure d st
  = Ok (appliquer st
          (depasse TourTailleSupEnvergure (tour_taille d) (envergure d))).
Proof.
  unfold verifier_tour_taille_envergure, depasse, renseigne.
  destruct (tour_taille d) as [x|]; [|reflexivity].
  destruct (envergure d) as [e|]; [|now destruct (Py.truthy x)].
  destruct (Py.truthy x && Py.truthy e)%bool; [|reflexivity].
  cbn [lire bind]. now destruct (Py.gt x e).
Qed.

Lemma verifier_jambe_envergure_regle (st : Etat) :
  verifier_jambe_envergure d st
  = Ok (appliquer st
          (depasse JambeSupEnvergure (longueur_jambe d) (envergure d))).
Proof.
  unfold verifier_jambe_envergure, depasse, renseigne.
  destruct (longueur_jambe d) as [x|]; [|reflexivity].
  destruct (envergure d) as [e|]; [|now destruct (Py.truthy x)].
  destruct (Py.truthy x && Py.truthy e)%bool; [|reflexivity].
  cbn [lire bind]. now destruct (Py.gt x e).
Qed.

(** Steps 2 to 8 never raise, and apply the verdicts of their rules in
    order. *)
Lemma controles_de_coherence_regles (st : Etat) :
  controles_de_coherence d a s t p st
  = Ok (appliquer_tous (verdicts d a s t p) st).
Proof.
  unfold controles_de_coherence.
  rewrite verifier_taille_age_regle, verifier_imc_regle. cbn [bind].
  rewrite verifier_ratio_tour_taille_regle. cbn [bind].
  rewrite verifier_ratio_envergure_regle. cbn [bind].
  rewrite verifier_ratio_jambe_regle. cbn [bind].
  rewrite verifier_poids_adulte_regle, verifier_poids_enfant_regle.
  cbn [bind].
  rewrite verifier_tour_taille_envergure_regle. cbn [bind].
  rewrite verifier_jambe_envergure_regle.
  reflexivity.
Qed.

End Raffinement.

Section Accumulation.

Import Regles.

Lemma appliquer_tous_erreurs (vs : list Verdict) (st : Etat) :
  e_erreurs (appliquer_tous vs st) = e_erreurs st ++ flat_map erreur_de vs.
Proof.
  unfold appliquer_tous. revert st.
  induction vs as [|v vs IH]; intro st; cbn [fold_left flat_map].
  - now rewrite app_nil_r.
  - rewrite IH. destruct v; cbn; try reflexivity.
    now rewrite <- app_assoc.
Qed.

Lemma appliquer_tous_avertissements (vs : list Verdict) (st : Etat) :
  e_avertissements (appliquer_tous vs st)
  = e_avertissements st ++ flat_map avertissement_de vs.
Proof.
  unfold appliquer_tous. revert st.
  induction vs as [|v vs IH]; intro st; cbn [fold_left flat_map].
  - now rewrite app_nil_r.
  - rewrite IH. destruct v; cbn; try reflexivity.
    now rewrite <- app_assoc.
Qed.

Lemma dans_erreurs (m : Message) (vs : list Verdict) :
  In m (flat_map erreur_de vs) <-> exists pts, In (Erreur m pts) vs.
Proof.
  rewrite in_flat_map. split.
  - intros (v & Hv & Hm). destruct v; cbn in Hm; try contradiction.
    destruct Hm as [<-|[]]. now exists pts.
  - intros (pts & H). exists (Erreur m pts). split; [assumption|now left].
Qed.

Lemma dans_avertissements (m : Message) (vs : list Verdict) :
  In m (flat_map avertissement_de vs)
  <-> exists pts, In (Avertissement m pts) vs.
Proof.
  rewrite in_flat_map. split.
  - intros (v & Hv & Hm). destruct v; cbn in Hm; try contradiction.
    destruct Hm as [<-|[]]. now exists pts.
  - intros (pts & H). exists (Avertissement m pts).
    split; [assumption|now left].
Qed.

End Accumulation.

(* ------------------------------------------------------------------ *)
(** ** The three return points of [valider_donnees] *)

Lemma non_vide_vrai {A : Type} (l : list A) : non_vide l = true <-> l <> [].
Proof. destruct l; cbn; split; congruence. Qed.

Lemma non_vide_faux {A : Type} (l : list A) : non_vide l = false <-> l = [].
Proof. destruct l; cbn; split; congruence. Qed.

Section Retours.

Variable d : Donnees.

Lemma valider_donnees_champs_manquants :
  champs_manquants d <> [] ->
  valider_donnees d
  = Ok (retour_anticipe (verifier_champs_requis d etat_initial)).
Proof.
  intro H. unfold valider_donnees. cbv zeta.
  rewrite champs_requis_erreurs.
  destruct (champs_manquants d); [contradiction|reflexivity].
Qed.

Variables (a : Z) (s : string) (t p : Q).
Hypothesis champ_age : age d = Some a.
Hypothesis champ_sexe : sexe d = Some s.
Hypothesis champ_taille : taille d = Some t.
Hypothesis champ_poids : poids d = Some p.

Lemma champs_presents : champs_manquants d = [].
Proof. apply aucun_champ_manquant. now exists a, s, t, p. Qed.

Lemma valider_donnees_apres_etape0 :
  valider_donnees d
  = let st := verifier_valeurs_de_base a (Py.lower s) t p etat_initial in
    if non_vide (e_erreurs st) then Ok (retour_anticipe st)
    else st' <- controles_de_coherence d a (Py.lower s) t p st ;;
         Ok (retour_final st').
Proof.
  unfold valider_donnees. cbv zeta.
  rewrite (champs_requis_neutre d champs_presents).
  cbn [etat_initial e_erreurs non_vide].
  rewrite champ_age, champ_sexe, champ_taille, champ_poids.
  reflexivity.
Qed.

Lemma valider_donnees_valeurs_invalides :
  ~ valeurs_valides a (Py.lower s) t p ->
  valider_donnees d
  = Ok (retour_anticipe
          (verifier_valeurs_de_base a (Py.lower s) t p etat_initial)).
Proof.
  intro H. rewrite valider_donnees_apres_etape0. cbv zeta.
  destruct (non_vide _) eqn:E; [reflexivity|].
  apply non_vide_faux, valeurs_de_base_sans_erreur in E. contradiction.
Qed.

Lemma valider_donnees_valeurs_valides :
  valeurs_valides a (Py.lower s) t p ->
  valider_donnees d
  = Ok (retour_final
          (Regles.appliquer_tous (Regles.verdicts d a (Py.lower s) t p)
             etat_initial)).
Proof.
  intro H. rewrite valider_donnees_apres_etape0. cbv zeta.
  rewrite (valeurs_valides_neutre _ _ _ _ _ H).
  cbn [etat_initial e_erreurs non_vide].
  rewrite controles_de_coherence_regles; [reflexivity|].
  exact (valeurs_valides_taille_non_nulle _ _ _ _ H).
Qed.

End Retours.

(** The base values are valid or they are not. *)
Lemma valeurs_valides_dec (a : Z) (s : string) (t p : Q) :
  valeurs_valides a s t p \/ ~ valeurs_valides a s t p.
Proof.
  destruct (non_vide (e_erreurs (verifier_valeurs_de_base a s t p etat_initial)))
    eqn:E.
  - right. intro H. rewrite (valeurs_valides_neutre _ _ _ _ _ H) in E.
    discriminate.
  - left. apply non_vide_faux in E.
    now apply valeurs_de_base_sans_erreur in E.
Qed.

(** [valider_donnees] raises on no record, and returns through one of its
    three return statements. *)
Lemma valider_donnees_parcours (d : Donnees) :
  exists r, valider_donnees d = Ok r /\ Parcours d r.
Proof.
  destruct (champs_manquants d) as [|c l] eqn:E.
  - apply aucun_champ_manquant in E.
    destruct E as (a & s & t & p & Ea & Es & Et & Ep).
    destruct (valeurs_valides_dec a (Py.lower s) t p) as [H|H].
    + eexists. split.
      * now apply (valider_donnees_valeurs_valides d a s t p).
      * apply (retour_complet d a s t p); try assumption.
        apply controles_de_coherence_regles.
        exact (valeurs_valides_taille_non_nulle _ _ _ _ H).
    + eexists. split.
      * now apply (valider_donnees_valeurs_invalides d a s t p).
      * now apply retour_valeurs_invalides.
  - assert (H : champs_manquants d <> []) by (rewrite E; discriminate).
    eexists. split.
    + now apply valider_donnees_champs_manquants.
    + now apply retour_champs_manquants.
Qed.

(* ------------------------------------------------------------------ *)
(** ** Validity, score bounds and the two short-circuits *)

Lemma max_zero_compat (x y : Q) : x == y -> Py.max 0 x == Py.max 0 y.
Proof.
  intro E. unfold Py.max.
  destruct (Py.lt 0 x) eqn:Ex, (Py.lt 0 y) eqn:Ey; reflechir; lra.
Qed.

Lemma parcours_validite (d : Donnees) (r : ValidationResult) :
  Parcours d r -> (est_valide r = true <-> erreurs r = []).
Proof.
  intros [Hm | a s t p Ea Es Et Ep Hv | a s t p st Ea Es Et Ep Hv Hst];
    cbn [retour_anticipe retour_final est_valide erreurs].
  - rewrite champs_requis_erreurs.
    split; [discriminate|].
    intro E. apply map_eq_nil in E. contradiction.
  - split; [discriminate|].
    intro E. apply valeurs_de_base_sans_erreur in E. contradiction.
  - rewrite Nat.eqb_eq. apply length_zero_iff_nil.
Qed.

Lemma parcours_score (d : Donnees) (r : ValidationResult) :
  Parcours d r -> 0 <= score_coherence r <= 100.
Proof.
  intros [Hm | a s t p Ea Es Et Ep Hv | a s t p st Ea Es Et Ep Hv Hst];
    cbn [retour_anticipe retour_final score_coherence].
  - apply max_zero_bornes. rewrite champs_requis_score.
    assert (H : 0 <= inject_Z (Z.of_nat (length (champs_manquants d)))).
    { change 0 with (inject_Z 0). rewrite <- Zle_Qle. lia. }
    lra.
  - apply max_zero_bornes.
    apply (Qle_trans _ _ _ (valeurs_de_base_score a (Py.lower s) t p _)).
    cbn. lra.
  - apply max_min_bornes.
Qed.

(** C1.  On every record [valider_donnees] returns a result, through one of
    its three return statements, and in that result [est_valide] is true
    exactly when the list [erreurs] is empty. *)
Theorem validite_ssi_aucune_erreur (d : Donnees) :
  exists r,
    valider_donnees d = Ok r
    /\ Parcours d r
    /\ (est_valide r = true <-> erreurs r = []).
Proof.
  destruct (valider_donnees_parcours d) as (r & Hr & Hp).
  exists r. split; [exact Hr|]. split; [exact Hp|].
  now apply (parcours_validite d).
Qed.

(** C2.  On every record [valider_donnees] returns a result whose
    [score_coherence] lies between 0 and 100, whichever of the three return
    statements produced it. *)
Theorem score_borne (d : Donnees) :
  exists r,
    valider_donnees d = Ok r
    /\ Parcours d r
    /\ 0 <= score_coherence r <= 100.
Proof.
  destruct (valider_donnees_parcours d) as (r & Hr & Hp).
  exists r. split; [exact Hr|]. split; [exact Hp|].
  now apply (parcours_score d).
Qed.

(** C3.  When k >= 1 of the four required keys are absent or null,
    [valider_donnees] returns at its first return statement: the result is
    invalid, its errors are the missing-field messages of the missing keys,
    one each and in the order of [champs_requis], it has no warning, and its
    score is max(0, 100 - 25 k). *)
Theorem champs_manquants_court_circuit (d : Donnees) (k : nat) :
  k = length (champs_manquants d) ->
  (1 <= k)%nat ->
  exists sc,
    valider_donnees d
    = Ok {| est_valide := false;
            erreurs := map ChampManquant (champs_manquants d);
            avertissements := [];
            score_coherence := sc |}
    /\ sc == Py.max 0 (100 - 25 * inject_Z (Z.of_nat k)).
Proof.
  intros -> Hk.
  assert (Hm : champs_manquants d <> []).
  { intro E. rewrite E in Hk. cbn in Hk. lia. }
  rewrite (valider_donnees_champs_manquants d Hm).
  unfold retour_anticipe.
  rewrite champs_requis_erreurs, champs_requis_avertissements.
  eexists. split; [reflexivity|].
  apply max_zero_compat, champs_requis_score.
Qed.

Lemma champs_manquants_court_circuit_temoin :
  exists sc,
    valider_donnees donnees_vides
    = Ok {| est_valide := false;
            erreurs := [ ChampManquant "age"; ChampManquant "sexe";
                         ChampManquant "taille"; ChampManquant "poids" ];
            avertissements := [];
            score_coherence := sc |}
    /\ sc == 0.
Proof.
  destruct (champs_manquants_court_circuit donnees_vides 4) as (sc & H & E).
  - reflexivity.
  - lia.
  - exists sc. split; [exact H|]. rewrite E. reflexivity.
Defined.

Section ValeursDeBase.

Variables (s : string) (t p : Q).
Hypothesis sexe_reconnu : s = "homme"%string \/ s = "femme"%string.
Hypothesis taille_bornee : 0 < t /\ t <= 300.
Hypothesis poids_borne : 0 < p /\ p <= 500.

Lemma verifier_sexe_neutre (st : Etat) : verifier_sexe s st = st.
Proof.
  unfold verifier_sexe.
  apply dans_homme_femme in sexe_reconnu. now rewrite sexe_reconnu.
Qed.

Lemma verifier_taille_neutre (st : Etat) : verifier_taille t st = st.
Proof.
  unfold verifier_taille.
  destruct (Py.le t 0 || Py.gt t 300)%bool eqn:E; [|reflexivity].
  reflechir. destruct taille_bornee, E; reflechir; lra.
Qed.

Lemma verifier_poids_neutre (st : Etat) : verifier_poids p st = st.
Proof.
  unfold verifier_poids.
  destruct (Py.le p 0 || Py.gt p 500)%bool eqn:E; [|reflexivity].
  reflechir. destruct poids_borne, E; reflechir; lra.
Qed.

End ValeursDeBase.

(** C4.  With the four required fields present, the sex recognised, the
    height in (0, 300], the weight in (0, 500] and age = 150,
    [valider_donnees] returns at its second return statement: the result is
    invalid, its only error is the one about the age, it has no warning and
    its score is 80, whatever the optional fields hold. *)
Theorem age_150_court_circuit (d : Donnees) (s : string) (t p : Q) :
  age d = Some 150%Z -> sexe d = Some s ->
  taille d = Some t -> poids d = Some p ->
  Py.lower s = "homme"%string \/ Py.lower s = "femme"%string ->
  0 < t /\ t <= 300 ->
  0 < p /\ p <= 500 ->
  valider_donnees d
  = Ok {| est_valide := false;
          erreurs := [ AgeInvalide 150 ];
          avertissements := [];
          score_coherence := 80 |}.
Proof.
  intros Ea Es Et Ep Hs Ht Hp.
  rewrite (valider_donnees_valeurs_invalides d 150 s t p Ea Es Et Ep).
  - unfold verifier_valeurs_de_base.
    rewrite (verifier_poids_neutre p Hp), (verifier_taille_neutre t Ht),
      (verifier_sexe_neutre _ Hs).
    reflexivity.
  - intros ((_ & H) & _). lia.
Qed.

Lemma age_150_court_circuit_temoin :
  valider_donnees
    (mesures 150 "Femme" 165 60 (Some 300) (Some 1) (Some 400))
  = Ok {| est_valide := false;
          erreurs := [ AgeInvalide 150 ];
          avertissements := [];
          score_coherence := 80 |}.
Proof.
  apply (age_150_court_circuit _ "Femme" 165 60); try reflexivity.
  - right. reflexivity.
  - split; lra.
  - split; lra.
Defined.

(* ------------------------------------------------------------------ *)
(** ** Which rule a message comes from *)

Lemma hors_bornes_vrai (r lo hi : Q) :
  (Py.lt r lo || Py.gt r hi)%bool = true <-> r < lo \/ hi < r.
Proof. now rewrite orb_true_iff, lt_spec, gt_spec. Qed.

Lemma hors_bornes_faux (r lo hi : Q) :
  (Py.lt r lo || Py.gt r hi)%bool = false <-> lo <= r /\ r <= hi.
Proof. now rewrite orb_false_iff, lt_false, gt_false. Qed.

Section Origine.

Import Regles.

Variables (d : Donnees) (a : Z) (s : string) (t p : Q).

Ltac par_cas :=
  repeat match goal with
  | |- context [match ?x with _ => _ end] => destruct x
  end;
  cbn; intro H; inversion H; reflexivity.

Lemma rang_taille_age (m : Message) :
  message_de (taille_age a s t) = Some m -> rang m = 0%nat.
Proof. unfold taille_age. par_cas. Qed.

Lemma rang_imc (m : Message) :
  message_de (imc p t) = Some m -> rang m = 1%nat.
Proof. unfold imc. cbv zeta. par_cas. Qed.

Lemma rang_ratio_tour_taille (m : Message) :
  message_de (ratio_tour_taille (tour_taille d) t) = Some m -> rang m = 2%nat.
Proof. unfold ratio_tour_taille. par_cas. Qed.

Lemma rang_ratio_envergure (m : Message) :
  message_de (ratio_envergure (envergure d) t) = Some m -> rang m = 3%nat.
Proof. unfold ratio_envergure. par_cas. Qed.

Lemma rang_ratio_jambe (m : Message) :
  message_de (ratio_jambe (longueur_jambe d) t) = Some m -> rang m = 4%nat.
Proof. unfold ratio_jambe. par_cas. Qed.

Lemma rang_poids_adulte (m : Message) :
  message_de (poids_adulte a t p) = Some m -> rang m = 5%nat.
Proof. unfold poids_adulte. par_cas. Qed.

Lemma rang_poids_enfant (m : Message) :
  message_de (poids_enfant a t p s) = Some m -> rang m = 6%nat.
Proof. unfold poids_enfant. cbv zeta. par_cas. Qed.

Lemma rang_tour_taille_envergure (m : Message) :
  message_de (depasse TourTailleSupEnvergure (tour_taille d) (envergure d))
  = Some m -> rang m = 7%nat.
Proof. unfold depasse. par_cas. Qed.

Lemma rang_jambe_envergure (m : Message) :
  message_de (depasse JambeSupEnvergure (longueur_jambe d) (envergure d))
  = Some m -> rang m = 8%nat.
Proof. unfold depasse. par_cas. Qed.

(** A verdict of the list that carries the message [m] is the verdict at
    position [rang m]. *)
Lemma verdict_a_son_rang (v : Verdict) (m : Message) :
  In v (verdicts d a s t p) -> message_de v = Some m ->
  nth_error (verdicts d a s t p) (rang m) = Some v.
Proof.
  unfold verdicts. cbn [In].
  intros [<-|[<-|[<-|[<-|[<-|[<-|[<-|[<-|[<-|[]]]]]]]]]] H.
  - now rewrite (rang_taille_age _ H).
  - now rewrite (rang_imc _ H).
  - now rewrite (rang_ratio_tour_taille _ H).
  - now rewrite (rang_ratio_envergure _ H).
  - now rewrite (rang_ratio_jambe _ H).
  - now rewrite (rang_poids_adulte _ H).
  - now rewrite (rang_poids_enfant _ H).
  - now rewrite (rang_tour_taille_envergure _ H).
  - now rewrite (rang_jambe_envergure _ H).
Qed.

(** The error [m] is in the list of errors built from the verdicts exactly
    when the rule of [m] yields it as an error. *)
Lemma erreur_ssi_verdict (m : Message) :
  In m (flat_map erreur_de (verdicts d a s t p))
  <-> exists pts,
        nth_error (verdicts d a s t p) (rang m) = Some (Erreur m pts).
Proof.
  rewrite dans_erreurs. split; intros (pts & H); exists pts.
  - now apply verdict_a_son_rang.
  - now apply nth_error_In in H.
Qed.

Lemma avertissement_ssi_verdict (m : Message) :
  In m (flat_map avertissement_de (verdicts d a s t p))
  <-> exists pts,
        nth_error (verdicts d a s t p) (rang m) = Some (Avertissement m pts).
Proof.
  rewrite dans_avertissements. split; intros (pts & H); exists pts.
  - now apply verdict_a_son_rang.
  - now apply nth_error_In in H.
Qed.

End Origine.

(** The errors and warnings of the result, for a record that passes Steps 0
    and 1. *)
Section ResultatComplet.

Import Regles.

Variables (d : Donnees) (a : Z) (s : string) (t p : Q).
Hypothesis champ_age : age d = Some a.
Hypothesis champ_sexe : sexe d = Some s.
Hypothesis champ_taille : taille d = Some t.
Hypothesis champ_poids : poids d = Some p.
Hypothesis valides : valeurs_valides a (Py.lower s) t p.

Lemma resultat_complet :
  exists r,
    valider_donnees d = Ok r
    /\ (forall m, In m (erreurs r) <->
          exists pts, nth_error (verdicts d a (Py.lower s) t p) (rang m)
                      = Some (Erreur m pts))
    /\ (forall m, In m (avertissements r) <->
          exists pts, nth_error (verdicts d a (Py.lower s) t p) (rang m)
                      = Some (Avertissement m pts)).
Proof.
  eexists. split.
  - now apply (valider_donnees_valeurs_valides d a s t p).
  - cbn [retour_final erreurs avertissements].
    rewrite appliquer_tous_erreurs, appliquer_tous_avertissements.
    cbn [etat_initial e_erreurs e_avertissements app].
    split; intro m.
    + apply erreur_ssi_verdict.
    + apply avertissement_ssi_verdict.
Qed.

End ResultatComplet.

(* ------------------------------------------------------------------ *)
(** ** Step 4: the arm-span ratio and its tolerance *)

Section Envergure.

Import Regles.

Variables (env t : Q).
Hypothesis envergure_non_nulle : ~ env == 0.

Local Abbreviation ratio := (env / t).
Local Abbreviation hors_tolerance :=
  (ratio < 0.98 - 0.1 \/ 1.06 + 0.1 < ratio).
Local Abbreviation tolere :=
  ((ratio < 0.98 \/ 1.06 < ratio)
   /\ (0.98 - 0.1 <= ratio /\ ratio <= 1.06 + 0.1)).
Local Abbreviation dans_plage := (0.98 <= ratio /\ ratio <= 1.06).

Lemma envergure_trois_cas :
  (hors_tolerance
   /\ ratio_envergure (Some env) t
      = Erreur (RatioEnvergure ratio 0.98 1.06) 10)
  \/ (tolere /\ ~ hors_tolerance
      /\ ratio_envergure (Some env) t
         = Avertissement (EnvergureAtypique env t) 3)
  \/ (dans_plage /\ ~ hors_tolerance /\ ~ tolere
      /\ ratio_envergure (Some env) t = Rien).
Proof.
  unfold ratio_envergure.
  apply truthy_spec in envergure_non_nulle. rewrite envergure_non_nulle.
  destruct (Py.lt ratio (0.98 - 0.1) || Py.gt ratio (1.06 + 0.1))%bool eqn:E1.
  - left. apply hors_bornes_vrai in E1. now split.
  - right. apply hors_bornes_faux in E1.
    destruct (Py.lt ratio 0.98 || Py.gt ratio 1.06)%bool eqn:E2.
    + left. apply hors_bornes_vrai in E2.
      repeat split; try tauto. intros [H|H]; lra.
    + right. apply hors_bornes_faux in E2.
      repeat split; try tauto.
      * intros [H|H]; lra.
      * intros ([H|H] & _); lra.
Qed.

End Envergure.



(* ------------------------------------------------------------------ *)
(** ** Step 3: the body-mass index *)

Section IMC.

Import Regles.

Variables (p t : Q).

Local Abbreviation i := (p / Py.carre (t / 100)).
Local Abbreviation extreme := (i < 10 \/ 50 < i).
Local Abbreviation inhabituel := ((10 <= i /\ i <= 50) /\ (i < 13 \/ 40 < i)).
Local Abbreviation normal := (13 <= i /\ i <= 40).


End IMC.



(* ------------------------------------------------------------------ *)
(** ** Steps 7 and 8: the cross-measurement checks *)

Section Croisement.

Import Regles.

Variables (msg : Q -> Q -> Message) (x env : Q).

Lemma depasse_cas :
  ~ x == 0 -> ~ env == 0 ->
  (env < x /\ depasse msg (Some x) (Some env) = Erreur (msg x env) 10)
  \/ (x <= env /\ depasse msg (Some x) (Some env) = Rien).
Proof.
  intros Hx He. unfold depasse.
  apply truthy_spec in Hx, He. rewrite Hx, He. cbn [andb].
  destruct (Py.gt x env) eqn:E; reflechir; [left|right]; now split.
Qed.

Lemma depasse_nul :
  x == 0 \/ env == 0 -> depasse msg (Some x) (Some env) = Rien.
Proof.
  intro H. unfold depasse.
  destruct H as [H|H]; apply truthy_false in H; rewrite H;
    [reflexivity|now rewrite andb_false_r].
Qed.

End Croisement.

(** C10, as the specification words it.  On [donnees_envergure_nulle] both waist and arm span
    are present and the waist exceeds the span, but [valider_donnees]
    returns a valid result with no error: presence alone is not the
    precondition of the cross-checks. *)
Lemma croisement_sur_simple_presence_refute :
  valider_donnees donnees_envergure_nulle
  = Ok {| est_valide := true; erreurs := []; avertissements := [];
          score_coherence := 100 |}
  /\ ~ croisement_sur_simple_presence.
Proof.
  split; [reflexivity|].
  intro H.
  destruct (H donnees_envergure_nulle 25%Z "homme"%string 178 75)
    as (r & Hr & Htt & _); try reflexivity.
  - repeat split; try lia; try lra. now left.
  - assert (E : r = {| est_valide := true; erreurs := [];
                       avertissements := []; score_coherence := 100 |}).
    { assert (E' : valider_donnees donnees_envergure_nulle
                   = Ok {| est_valide := true; erreurs := [];
                           avertissements := []; score_coherence := 100 |})
        by reflexivity.
      rewrite Hr in E'. now injection E'. }
    assert (Hin : In (TourTailleSupEnvergure 85 0) (erreurs r)).
    { apply (Htt 85 0); reflexivity. }
    rewrite E in Hin. exact Hin.
Qed.

(** C10, amended.  For a record that reaches Step 7 (required fields
    present, base values valid):
    - whenever waist and arm span are both present and both non-zero, the
      waist-exceeds-span error is among the errors of the result iff
      tour_taille > envergure, and Step 7 then appends it and deducts 10;
    - whenever leg length and arm span are both present and both non-zero,
      the leg-exceeds-span error is among the errors of the result iff
      longueur_jambe > envergure, and Step 8 then appends it and deducts 10;
    - when one of the two measurements is zero, the step leaves errors,
      warnings and score as they are. *)
Theorem croisement_mesures_non_nulles
  (d : Donnees) (a : Z) (s : string) (t p : Q) :
  age d = Some a -> sexe d = Some s ->
  taille d = Some t -> poids d = Some p ->
  valeurs_valides a (Py.lower s) t p ->
  exists r,
    valider_donnees d = Ok r
    /\ (forall tt env,
          tour_taille d = Some tt -> envergure d = Some env ->
          (~ tt == 0 -> ~ env == 0 ->
           (In (TourTailleSupEnvergure tt env) (erreurs r) <-> env < tt)
           /\ forall st,
                (env < tt ->
                 verifier_tour_taille_envergure d st
                 = Ok (ajouter_erreur (TourTailleSupEnvergure tt env) 10 st))
                /\ (tt <= env -> verifier_tour_taille_envergure d st = Ok st))
          /\ (tt == 0 \/ env == 0 ->
              ~ In (TourTailleSupEnvergure tt env) (erreurs r)
              /\ forall st, verifier_tour_taille_envergure d st = Ok st))
    /\ (forall lj env,
          longueur_jambe d = Some lj -> envergure d = Some env ->
          (~ lj == 0 -> ~ env == 0 ->
           (In (JambeSupEnvergure lj env) (erreurs r) <-> env < lj)
           /\ forall st,
                (env < lj ->
                 verifier_jambe_envergure d st
                 = Ok (ajouter_erreur (JambeSupEnvergure lj env) 10 st))
                /\ (lj <= env -> verifier_jambe_envergure d st = Ok st))
          /\ (lj == 0 \/ env == 0 ->
              ~ In (JambeSupEnvergure lj env) (erreurs r)
              /\ forall st, verifier_jambe_envergure d st = Ok st)).
Proof.
  intros Ea Es Et Ep Hv.
  destruct (resultat_complet d a s t p Ea Es Et Ep Hv) as (r & Hr & He & _).
  exists r. split; [exact Hr|].
  split.
  - intros tt env Ett Eenv. split.
    + intros Hx Hy. split.
      * rewrite He. cbn [Regles.rang Regles.verdicts nth_error]. rewrite Ett, Eenv.
        destruct (depasse_cas TourTailleSupEnvergure tt env Hx Hy)
          as [(H & E)|(H & E)]; rewrite E;
          (split; [intros (pts & [=]) | intro H']);
          [assumption | now exists 10 | lra].
      * intro st. rewrite verifier_tour_taille_envergure_regle, Ett, Eenv.
        destruct (depasse_cas TourTailleSupEnvergure tt env Hx Hy)
          as [(H & E)|(H & E)]; rewrite E; cbn [Regles.appliquer];
          (split; intro H'); try reflexivity; lra.
    + intro Hz. split.
      * rewrite He. cbn [Regles.rang Regles.verdicts nth_error]. rewrite Ett, Eenv.
        rewrite (depasse_nul _ _ _ Hz). intros (pts & [=]).
      * intro st. rewrite verifier_tour_taille_envergure_regle, Ett, Eenv.
        now rewrite (depasse_nul _ _ _ Hz).
  - intros lj env Elj Eenv. split.
    + intros Hx Hy. split.
      * rewrite He. cbn [Regles.rang Regles.verdicts nth_error]. rewrite Elj, Eenv.
        destruct (depasse_cas JambeSupEnvergure lj env Hx Hy)
          as [(H & E)|(H & E)]; rewrite E;
          (split; [intros (pts & [=]) | intro H']);
          [assumption | now exists 10 | lra].
      * intro st. rewrite verifier_jambe_envergure_regle, Elj, Eenv.
        destruct (depasse_cas JambeSupEnvergure lj env Hx Hy)
          as [(H & E)|(H & E)]; rewrite E; cbn [Regles.appliquer];
          (split; intro H'); try reflexivity; lra.
    + intro Hz. split.
      * rewrite He. cbn [Regles.rang Regles.verdicts nth_error]. rewrite Elj, Eenv.
        rewrite (depasse_nul _ _ _ Hz). intros (pts & [=]).
      * intro st. rewrite verifier_jambe_envergure_regle, Elj, Eenv.
        now rewrite (depasse_nul _ _ _ Hz).
Qed.

Lemma croisement_mesures_non_nulles_temoin :
  exists r,
    valider_donnees donnees5 = Ok r
    /\ In (TourTailleSupEnvergure 200 178) (erreurs r)
    /\ In (JambeSupEnvergure 180 178) (erreurs r).
Proof.
  destruct (croisement_mesures_non_nulles donnees5 28 "homme" 175 70)
    as (r & Hr & Htt & Hlj); try reflexivity.
  - repeat split; try lia; try lra. now left.
  - exists r. split; [exact Hr|]. split.
    + destruct (Htt 200 178 eq_refl eq_refl) as (H & _).
      destruct H as (H & _); [lra | lra |]. apply H. reflexivity.
    + destruct (Hlj 180 178 eq_refl eq_refl) as (H & _).
      destruct H as (H & _); [lra | lra |]. apply H. reflexivity.
Defined.

(* ------------------------------------------------------------------ *)
(** ** The height-range table *)

Section Intervalles.

Lemma enchainees_ordre (l : list (Z * Z)) :
  forall lo hi, enchainees lo hi l -> (lo <= hi)%Z.
Proof.
  induction l as [|[x y] l IH]; cbn; intros lo hi H.
  - lia.
  - destruct H as (-> & Hxy & H). apply IH in H. lia.
Qed.

(** Chained intervals cover [lo, hi) and nothing else. *)
Lemma enchainees_couverture (l : list (Z * Z)) :
  forall lo hi, enchainees lo hi l ->
  forall a, (exists i, In i l /\ contient i a) <-> (lo <= a < hi)%Z.
Proof.
  induction l as [|[x y] l IH]; cbn [enchainees]; intros lo hi H a.
  - split; [intros (i & [] & _) | lia].
  - destruct H as (-> & Hxy & H).
    pose proof (enchainees_ordre _ _ _ H) as Hord.
    specialize (IH _ _ H a). split.
    + intros (i & [<-|Hi] & Hc).
      * unfold contient in Hc. cbn in Hc. lia.
      * assert (y <= a < hi)%Z by (apply IH; now exists i). lia.
    + intro Ha. destruct (Z_lt_dec a y) as [Hlt|Hge].
      * exists (lo, y). split; [now left|]. unfold contient. cbn. lia.
      * destruct IH as (_ & IH). destruct IH as (i & Hi & Hc); [lia|].
        exists i. split; [now right|assumption].
Qed.

(** Chained intervals are pairwise disjoint: an age lies in the interval of
    one position at most. *)
Lemma enchainees_disjointes (l : list (Z * Z)) :
  forall lo hi, enchainees lo hi l ->
  forall j k ij ik a,
    nth_error l j = Some ij -> nth_error l k = Some ik ->
    contient ij a -> contient ik a -> j = k.
Proof.
  induction l as [|[x y] l IH]; cbn [enchainees]; intros lo hi H j k ij ik a.
  - now destruct j.
  - destruct H as (-> & Hxy & H).
    assert (Hreste : forall n i, nth_error l n = Some i -> contient i a ->
                                 (y <= a)%Z).
    { intros n i Hn Hc.
      assert (y <= a < hi)%Z; [|lia].
      apply (enchainees_couverture _ _ _ H). exists i.
      split; [now apply nth_error_In in Hn|assumption]. }
    destruct j as [|j], k as [|k]; cbn [nth_error]; intros Hj Hk Hcj Hck.
    + reflexivity.
    + injection Hj as <-. apply Hreste in Hk; [|assumption].
      unfold contient in Hcj. cbn in Hcj. lia.
    + injection Hk as <-. apply Hreste in Hj; [|assumption].
      unfold contient in Hck. cbn in Hck. lia.
    + f_equal. now apply (IH _ _ H j k ij ik a).
Qed.

(** The scan returns the range of an interval that contains the age as soon
    as there is one. *)
Lemma parcourir_plages_trouve (a : Z) (plages : list ((Z * Z) * (Z * Z))) :
  (exists i, In i (map fst plages) /\ contient i a) ->
  exists i r, In (i, r) plages /\ contient i a
              /\ parcourir_plages a plages = Some r.
Proof.
  induction plages as [|[[x y] [mn mx]] l IH]; cbn [map In parcourir_plages].
  - intros (i & [] & _).
  - intros (i & Hi & Hc).
    destruct ((x <=? a)%Z && (a <? y)%Z)%bool eqn:E.
    + exists (x, y), (mn, mx). split; [now left|]. split; [|reflexivity].
      reflechir. unfold contient. cbn. lia.
    + destruct Hi as [<-|Hi].
      * exfalso. unfold contient in Hc. cbn in Hc.
        reflechir. destruct E; reflechir; lia.
      * destruct IH as (i' & r & Hin & Hc' & Hr); [now exists i|].
        exists i', r. split; [now right|]. now split.
Qed.

End Intervalles.

(** C7.  For each sex of the table, the age intervals follow one another
    from 0 to 150: they are pairwise disjoint and cover exactly [0, 150).
    Consequently, for a recognised sex and 0 <= age <= 120, exactly one
    interval holds the age, [_obtenir_plage_taille] returns the range of
    that interval, and Step 2 compares the height with that range (the
    branch that skips the check is not taken). *)
Theorem plages_de_taille_partition :
  (forall s plages,
     In (s, plages) taille_normale ->
     (s = "homme"%string \/ s = "femme"%string)
     /\ (forall j k ij ik a,
           nth_error (map fst plages) j = Some ij ->
           nth_error (map fst plages) k = Some ik ->
           contient ij a -> contient ik a -> j = k)
     /\ (forall a,
           (exists i, In i (map fst plages) /\ contient i a)
           <-> (0 <= a < 150)%Z))
  /\ (forall a s,
        (0 <= a <= 120)%Z ->
        s = "homme"%string \/ s = "femme"%string ->
        exists plages i min_taille max_taille,
          chercher s taille_normale = Some plages
          /\ In (i, (min_taille, max_taille)) plages
          /\ contient i a
          /\ (forall i', In i' (map fst plages) -> contient i' a -> i' = i)
          /\ _obtenir_plage_taille a s = Some (min_taille, max_taille)
          /\ forall t st,
               verifier_taille_age a s t st
               = if orb (Py.lt t (inject_Z min_taille))
                        (Py.gt t (inject_Z max_taille))
                 then ajouter_erreur
                        (TailleIncoherente s a t min_taille max_taille) 15 st
                 else st).
Proof.
  assert (Hch : forall s plages, In (s, plages) taille_normale ->
                (s = "homme"%string \/ s = "femme"%string)
                /\ chercher s taille_normale = Some plages
                /\ enchainees 0 150 (map fst plages)).
  { intros s plages Hin. cbn in Hin.
    destruct Hin as [Heq|[Heq|[]]]; injection Heq as <- <-; cbn;
      repeat split; auto; lia. }
  split.
  - intros s plages Hin. destruct (Hch _ _ Hin) as (Hs & _ & Hc).
    split; [exact Hs|]. split.
    + exact (enchainees_disjointes _ _ _ Hc).
    + exact (enchainees_couverture _ _ _ Hc).
  - intros a s Ha Hs.
    assert (Hp : exists plages, In (s, plages) taille_normale).
    { destruct Hs as [ -> | -> ]; eexists; cbn; [left|right; left]; reflexivity. }
    destruct Hp as (plages & Hin).
    destruct (Hch _ _ Hin) as (_ & Hl & Hc).
    destruct (parcourir_plages_trouve a plages) as (i & r & Hi & Hci & Hr).
    { apply (enchainees_couverture _ _ _ Hc). lia. }
    destruct r as [mn mx].
    assert (Ho : _obtenir_plage_taille a s = Some (mn, mx)).
    { unfold _obtenir_plage_taille. now rewrite Hl. }
    exists plages, i, mn, mx.
    split; [exact Hl|]. split; [exact Hi|]. split; [exact Hci|].
    split; [|split; [exact Ho|]].
    + intros i' Hi' Hci'.
      apply In_nth_error in Hi'. destruct Hi' as (j & Hj).
      assert (Hi2 : In i (map fst plages)).
      { apply in_map_iff. now exists (i, (mn, mx)). }
      apply In_nth_error in Hi2. destruct Hi2 as (k & Hk).
      assert (E : j = k)
        by exact (enchainees_disjointes _ _ _ Hc j k i' i a Hj Hk Hci' Hci).
      subst j. congruence.
    + intros t st. unfold verifier_taille_age. now rewrite Ho.
Qed.

Lemma plages_de_taille_partition_temoin :
  _obtenir_plage_taille 25 "homme" = Some (150, 210)%Z
  /\ exists plages i,
       chercher "homme"%string taille_normale = Some plages
       /\ In (i, (150, 210)%Z) plages /\ contient i 25.
Proof.
  destruct plages_de_taille_partition as (_ & H).
  destruct (H 25%Z "homme"%string) as (pl & i & mn & mx & Hl & Hi & Hc & _ & Ho & _).
  - lia.
  - now left.
  - assert (E : Some (mn, mx) = Some (150, 210)%Z)
      by (rewrite <- Ho; reflexivity).
    injection E as -> ->.
    split; [reflexivity|]. now exists pl, i.
Defined.

(* ------------------------------------------------------------------ *)
(** ** The child-weight estimate *)



(* ------------------------------------------------------------------ *)
(** ** The coherent adult of [exemple_utilisation] *)

(** C9.  On the record {age: 25, sexe: "homme", taille: 178, poids: 75,
    envergure: 180, tour_taille: 85}, [valider_donnees] returns a valid
    result with no error, no warning and a score of 100. *)
Theorem exemple_adulte_coherent :
  valider_donnees
    {| age := Some 25%Z; sexe := Some "homme"%string;
       taille := Some 178; poids := Some 75;
       tour_taille := Some 85; envergure := Some 180;
       longueur_jambe := None; taille_mere := None; taille_pere := None |}
  = Ok {| est_valide := true; erreurs := []; avertissements := [];
          score_coherence := 100 |}.
Proof. vm_compute. reflexivity. Qed.

(* ------------------------------------------------------------------ *)
(** ** The score and the deductions of the messages *)

Section Comptes.

Import Regles.

(** Proves a property of every verdict of [verdicts], one rule at a time. *)
Ltac regle_par_regle fin :=
  unfold verdicts;
  repeat (apply Forall_cons || apply Forall_nil);
  unfold taille_age, imc, ratio_tour_taille, ratio_envergure, ratio_jambe,
    poids_adulte, poids_enfant, depasse; cbv zeta;
  repeat match goal with
  | |- context [match ?x with _ => _ end] => destruct x
  end;
  fin.

Variables (d : Donnees) (a : Z) (s : string) (t p : Q).

Lemma verdicts_points_du_message :
  Forall points_du_message (verdicts d a s t p).
Proof. regle_par_regle ltac:(reflexivity). Qed.

Lemma verdicts_gravite : Forall gravite_du_verdict (verdicts d a s t p).
Proof.
  regle_par_regle
    ltac:(split; cbn; repeat (apply Forall_cons || apply Forall_nil);
          cbn; lia).
Qed.

Lemma total_penalites_app (l l' : list Message) :
  total_penalites (l ++ l')
  = (total_penalites l + total_penalites l')%Z.
Proof.
  induction l as [|m l IH]; cbn [app total_penalites]; [reflexivity|].
  rewrite IH. lia.
Qed.

Lemma total_penalites_positif (l : list Message) :
  (0 <= total_penalites l)%Z.
Proof.
  induction l as [|m l IH]; cbn [total_penalites]; [lia|].
  destruct m; cbn [penalite]; lia.
Qed.

Lemma total_penalites_nul (l : list Message) :
  total_penalites l = 0%Z <-> l = [].
Proof.
  split; [|now intros ->].
  destruct l as [|m l]; [reflexivity|]. cbn [total_penalites].
  pose proof (total_penalites_positif l).
  destruct m; cbn [penalite]; lia.
Qed.

Lemma total_points_messages (vs : list Verdict) :
  Forall points_du_message vs ->
  total_points vs
  == inject_Z (total_penalites (flat_map erreur_de vs)
               + total_penalites (flat_map avertissement_de vs)).
Proof.
  induction 1 as [|v vs Hv _ IH]; cbn [total_points flat_map];
    [reflexivity|].
  rewrite IH, Hv, !total_penalites_app, <- inject_Z_plus.
  apply inject_Z_injective. lia.
Qed.

Lemma appliquer_tous_score (vs : list Verdict) (st : Etat) :
  e_score (appliquer_tous vs st) == e_score st - total_points vs.
Proof.
  unfold appliquer_tous. revert st.
  induction vs as [|v vs IH]; intro st; cbn [fold_left total_points].
  - ring.
  - rewrite IH. destruct v; cbn [appliquer ajouter_erreur
      ajouter_avertissement e_score points]; ring.
Qed.

Lemma gravite_erreurs (vs : list Verdict) :
  Forall gravite_du_verdict vs ->
  Forall (fun m => (10 <= penalite m)%Z) (flat_map erreur_de vs).
Proof.
  induction 1 as [|v vs (Hv & _) _ IH]; cbn [flat_map];
    [constructor|].
  apply Forall_app. now split.
Qed.

(** The warnings of Steps 2 to 8 cost 13 points at most: 5 for the body-mass
    index, 3 for the arm span and 5 for the weight of a child. *)
Lemma avertissements_au_plus_13 :
  (total_penalites (flat_map avertissement_de (verdicts d a s t p)) <= 13)%Z.
Proof.
  unfold verdicts. cbn [flat_map]. rewrite !total_penalites_app.
  assert (H2 : (total_penalites (avertissement_de (imc p t)) <= 5)%Z).
  { unfold imc. cbv zeta.
    repeat match goal with
    | |- context [match ?x with _ => _ end] => destruct x
    end; cbn; lia. }
  assert (H4 : (total_penalites
                  (avertissement_de
                     (ratio_envergure (envergure d) t)) <= 3)%Z).
  { unfold ratio_envergure.
    repeat match goal with
    | |- context [match ?x with _ => _ end] => destruct x
    end; cbn; lia. }
  assert (H7 : (total_penalites
                  (avertissement_de (poids_enfant a t p s)) <= 5)%Z).
  { unfold poids_enfant. cbv zeta.
    repeat match goal with
    | |- context [match ?x with _ => _ end] => destruct x
    end; cbn; lia. }
  assert (H1 : avertissement_de (taille_age a s t) = []).
  { unfold taille_age.
    repeat match goal with
    | |- context [match ?x with _ => _ end] => destruct x
    end; reflexivity. }
  assert (H3 : avertissement_de (ratio_tour_taille (tour_taille d) t) = []).
  { unfold ratio_tour_taille.
    repeat match goal with
    | |- context [match ?x with _ => _ end] => destruct x
    end; reflexivity. }
  assert (H5 : avertissement_de (ratio_jambe (longueur_jambe d) t) = []).
  { unfold ratio_jambe.
    repeat match goal with
    | |- context [match ?x with _ => _ end] => destruct x
    end; reflexivity. }
  assert (H6 : avertissement_de (poids_adulte a t p) = []).
  { unfold poids_adulte.
    repeat match goal with
    | |- context [match ?x with _ => _ end] => destruct x
    end; reflexivity. }
  assert (H8 : forall msg x y, avertissement_de (depasse msg x y) = []).
  { intros msg x y. unfold depasse.
    repeat match goal with
    | |- context [match ?x with _ => _ end] => destruct x
    end; reflexivity. }
  rewrite H1, H3, H5, H6, !H8. cbn [total_penalites]. lia.
Qed.

(** Steps 2 to 8 deduct 95 points at most. *)
Lemma total_points_au_plus_95 :
  0 <= total_points (verdicts d a s t p)
  /\ total_points (verdicts d a s t p) <= 95.
Proof.
  assert (H : Forall2 points_bornes [15; 15; 10; 10; 10; 10; 5; 10; 10]
                (verdicts d a s t p)).
  { unfold verdicts.
    repeat (apply Forall2_cons || apply Forall2_nil);
    unfold taille_age, imc, ratio_tour_taille, ratio_envergure, ratio_jambe,
      poids_adulte, poids_enfant, depasse, points_bornes; cbv zeta;
    repeat match goal with
    | |- context [match ?x with _ => _ end] => destruct x
    end; cbn [points]; split; lra. }
  unfold verdicts in *.
  repeat match goal with
  | H : Forall2 _ _ (_ :: _) |- _ => inversion H; clear H; subst
  end.
  unfold points_bornes in *. cbn [total_points].
  repeat match goal with
  | H : _ /\ _ |- _ => destruct H
  end.
  split; lra.
Qed.

End Comptes.

Lemma max_zero_neutre (x : Q) : 0 <= x -> Py.max 0 x == x.
Proof.
  intro H. unfold Py.max. destruct (Py.lt 0 x) eqn:E; reflechir; lra.
Qed.

Lemma max_min_neutre (x : Q) :
  0 <= x /\ x <= 100 -> Py.max 0 (Py.min 100 x) == x.
Proof.
  intros (H0 & H1). unfold Py.min.
  destruct (Py.lt x 100) eqn:E; reflechir.
  - now apply max_zero_neutre.
  - rewrite max_zero_neutre; lra.
Qed.

Lemma total_penalites_champs (l : list string) :
  total_penalites (map ChampManquant l) = (25 * Z.of_nat (length l))%Z.
Proof.
  induction l as [|c l IH]; cbn [map total_penalites length penalite];
    [reflexivity|].
  rewrite IH. lia.
Qed.

Lemma champs_manquants_au_plus_4 (d : Donnees) :
  (length (champs_manquants d) <= 4)%nat.
Proof. apply (filter_length_le (champ_manquant d) champs_requis). Qed.

(** What the three return statements have in common: the score is 100 less
    the deductions of the messages returned, an error costs 10 points at
    least, and the warnings cost 13 points at most together. *)
Lemma parcours_comptes (d : Donnees) (r : ValidationResult) :
  Parcours d r ->
  score_coherence r
  == 100 - inject_Z (total_penalites (erreurs r ++ avertissements r))
  /\ Forall (fun m => (10 <= penalite m)%Z) (erreurs r)
  /\ (total_penalites (avertissements r) <= 13)%Z.
Proof.
  intros [Hm | a s t p Ea Es Et Ep Hv | a s t p st Ea Es Et Ep Hv Hst];
    cbn [retour_anticipe retour_final score_coherence erreurs avertissements].
  - rewrite champs_requis_erreurs, champs_requis_avertissements, app_nil_r.
    rewrite total_penalites_champs.
    pose proof (champs_manquants_au_plus_4 d) as H4.
    assert (Hk : inject_Z (Z.of_nat (length (champs_manquants d))) <= 4).
    { change 4 with (inject_Z 4). rewrite <- Zle_Qle. lia. }
    split; [|split].
    + rewrite max_zero_neutre; rewrite champs_requis_score.
      * rewrite inject_Z_mult. reflexivity.
      * lra.
    + apply Forall_forall. intros m Hin. apply in_map_iff in Hin.
      destruct Hin as (c & <- & _). cbn. lia.
    + cbn. lia.
  - rewrite valeurs_de_base_avertissements. cbn [etat_initial e_avertissements].
    rewrite app_nil_r.
    unfold verifier_valeurs_de_base, verifier_age, verifier_sexe,
      verifier_taille, verifier_poids.
    destruct ((a <? 0)%Z || (a >? 120)%Z)%bool;
    destruct (negb (Py.dans (Py.lower s) [ "homme"; "femme" ]%string));
    destruct (Py.le t 0 || Py.gt t 300)%bool;
    destruct (Py.le p 0 || Py.gt p 500)%bool;
    (split; [reflexivity|split; [|cbn; lia]]);
    cbn; repeat (apply Forall_cons || apply Forall_nil); cbn; lia.
  - assert (E : st = Regles.appliquer_tous
                       (Regles.verdicts d a (Py.lower s) t p) etat_initial).
    { rewrite controles_de_coherence_regles in Hst
        by exact (valeurs_valides_taille_non_nulle _ _ _ _ Hv).
      congruence. }
    rewrite E.
    rewrite appliquer_tous_erreurs, appliquer_tous_avertissements.
    cbn [etat_initial e_erreurs e_avertissements app].
    split; [|split].
    + pose proof (total_points_au_plus_95 d a (Py.lower s) t p) as (H0 & H95).
      rewrite max_min_neutre; rewrite appliquer_tous_score;
        cbn [etat_initial e_score]; [|split; lra].
      rewrite (total_points_messages _
                 (verdicts_points_du_message d a (Py.lower s) t p)).
      now rewrite total_penalites_app.
    + apply gravite_erreurs, verdicts_gravite.
    + apply avertissements_au_plus_13.
Qed.

Lemma total_penalites_erreurs (l : list Message) :
  Forall (fun m => (10 <= penalite m)%Z) l ->
  (10 * Z.of_nat (length l) <= total_penalites l)%Z.
Proof.
  induction 1 as [|m l Hm _ IH]; cbn [total_penalites length]; lia.
Qed.

(** X1.  On every record the score of the result is 100 less the deductions
    of the errors and warnings that the result lists: neither [max(0, ...)]
    nor [min(100, ...)] ever changes the value. *)
Theorem score_cent_moins_penalites (d : Donnees) :
  exists r,
    valider_donnees d = Ok r
    /\ score_coherence r
       == 100 - inject_Z (total_penalites (erreurs r ++ avertissements r)).
Proof.
  destruct (valider_donnees_parcours d) as (r & Hr & Hp).
  exists r. split; [exact Hr|]. now apply (parcours_comptes d).
Qed.

(** X2.  On every record the score of the result is 100 exactly when the
    result lists no error and no warning. *)
Theorem score_parfait_ssi_aucun_message (d : Donnees) :
  exists r,
    valider_donnees d = Ok r
    /\ (score_coherence r == 100
        <-> erreurs r = [] /\ avertissements r = []).
Proof.
  destruct (valider_donnees_parcours d) as (r & Hr & Hp).
  exists r. split; [exact Hr|].
  destruct (parcours_comptes d r Hp) as (Hs & _ & _).
  rewrite Hs. split.
  - intro H.
    assert (H0 : inject_Z (total_penalites (erreurs r ++ avertissements r))
                 == inject_Z 0) by (change (inject_Z 0) with 0; lra).
    apply inject_Z_injective, total_penalites_nul, app_eq_nil in H0.
    exact H0.
  - intros (-> & ->). reflexivity.
Qed.

(** A valid record with the three warnings, and an invalid record with one
    error of 10 points. *)
Lemma scores_87_et_90 :
  valider_donnees (mesures 10 "femme" 140 80 None (Some 154) None)
  = Ok {| est_valide := true;
          erreurs := [];
          avertissements :=
            [ IMCInhabituel (80 / Py.carre (140 / 100));
              EnvergureAtypique 154 140;
              PoidsInhabituel 80 (inject_Z (10 * 2 + 8)) ];
          score_coherence := 87 |}
  /\ valider_donnees (mesures 25 "homme" 178 75 (Some 120) None None)
     = Ok {| est_valide := false;
             erreurs := [ RatioTourTaille (120 / 178) 0.35 0.55 ];
             avertissements := [];
             score_coherence := 90 |}.
Proof. split; reflexivity. Qed.

(** X3.  On every record a valid result scores 87 at least and an invalid
    result scores 90 at most; both bounds are reached, so a valid result can
    score less than an invalid one. *)
Theorem score_selon_validite :
  (forall d,
     exists r,
       valider_donnees d = Ok r
       /\ (est_valide r = true -> 87 <= score_coherence r)
       /\ (est_valide r = false -> score_coherence r <= 90))
  /\ (exists d r,
        valider_donnees d = Ok r
        /\ est_valide r = true /\ score_coherence r == 87)
  /\ (exists d r,
        valider_donnees d = Ok r
        /\ est_valide r = false /\ score_coherence r == 90).
Proof.
  split; [|split].
  - intro d.
    destruct (valider_donnees_parcours d) as (r & Hr & Hp).
    exists r. split; [exact Hr|].
    destruct (parcours_comptes d r Hp) as (Hs & He & Ha).
    pose proof (parcours_validite d r Hp) as Hv.
    rewrite Hs, total_penalites_app, inject_Z_plus.
    split; intro H.
    + apply Hv in H. rewrite H. cbn [total_penalites].
      assert (Hq : inject_Z (total_penalites (avertissements r)) <= 13).
      { change 13 with (inject_Z 13). now rewrite <- Zle_Qle. }
      change (inject_Z 0) with 0. lra.
    + assert (Hne : erreurs r <> []).
      { intro E. apply Hv in E. congruence. }
      pose proof (total_penalites_erreurs _ He) as H10.
      pose proof (total_penalites_positif (avertissements r)) as H0.
      assert (Hlen : (1 <= Z.of_nat (length (erreurs r)))%Z).
      { destruct (erreurs r); [contradiction|cbn [length]; lia]. }
      assert (Hq : 10 <= inject_Z (total_penalites (erreurs r))).
      { change 10 with (inject_Z 10). rewrite <- Zle_Qle. lia. }
      assert (Hq' : 0 <= inject_Z (total_penalites (avertissements r))).
      { change 0 with (inject_Z 0). now rewrite <- Zle_Qle. }
      lra.
  - destruct scores_87_et_90 as (H & _).
    eexists. eexists. split; [exact H|]. split; reflexivity.
  - destruct scores_87_et_90 as (_ & H).
    eexists. eexists. split; [exact H|]. split; reflexivity.
Qed.

(* ------------------------------------------------------------------ *)
(** ** Step 1 in full, and the fields the result depends on *)



Section MemesMesures.

Variables d d' : Donnees.
Hypothesis memes : memes_mesures d d'.

Lemma memes_champs_requis (st : Etat) :
  verifier_champs_requis d st = verifier_champs_requis d' st.
Proof.
  destruct memes as (Ea & Es & Et & Ep & _).
  unfold verifier_champs_requis, champs_requis. cbn [fold_left].
  unfold verifier_champ, champ_manquant.
  cbn [String.eqb Ascii.eqb Bool.eqb].
  rewrite Ea, Et, Ep.
  replace (est_none (sexe d)) with (est_none (sexe d'));
    [reflexivity|].
  destruct (sexe d), (sexe d'); cbn in Es; cbn; congruence.
Qed.

Lemma memes_controles (a : Z) (s : string) (t p : Q) (st : Etat) :
  controles_de_coherence d a s t p st = controles_de_coherence d' a s t p st.
Proof.
  destruct memes as (_ & _ & _ & _ & Ett & Eenv & Elj).
  unfold controles_de_coherence, verifier_ratio_tour_taille,
    verifier_ratio_envergure, verifier_ratio_jambe,
    verifier_tour_taille_envergure, verifier_jambe_envergure.
  now rewrite Ett, Eenv, Elj.
Qed.

End MemesMesures.

(** X5.  The result depends on the record through age, the lower-cased sex,
    height, weight, waist, arm span and leg length only: two records that
    differ in the letter case of [sexe], or in [taille_mere] and
    [taille_pere], get the same result. *)
Theorem memes_mesures_meme_resultat (d d' : Donnees) :
  memes_mesures d d' -> valider_donnees d = valider_donnees d'.
Proof.
  intro H. unfold valider_donnees. cbv zeta.
  rewrite (memes_champs_requis d d' H).
  destruct (non_vide _); [reflexivity|].
  pose proof H as (Ea & Es & Et & Ep & _).
  rewrite Ea, Et, Ep.
  destruct (age d') as [a|]; [|reflexivity]. cbn [lire bind].
  destruct (sexe d) as [s|], (sexe d') as [s'|]; cbn in Es;
    try discriminate; [|reflexivity].
  injection Es as Es. cbn [lire bind]. rewrite Es.
  destruct (taille d') as [t|]; [|reflexivity]. cbn [lire bind].
  destruct (poids d') as [p|]; [|reflexivity]. cbn [lire bind].
  destruct (non_vide _); [reflexivity|].
  now rewrite (memes_controles d d' H).
Qed.

Lemma memes_mesures_meme_resultat_temoin :
  valider_donnees
    {| age := Some 25%Z; sexe := Some "HoMmE"%string;
       taille := Some 178; poids := Some 75;
       tour_taille := Some 85; envergure := Some 180;
       longueur_jambe := None;
       taille_mere := Some 165; taille_pere := Some 0 |}
  = valider_donnees donnees1.
Proof.
  apply memes_mesures_meme_resultat.
  repeat split; reflexivity.
Defined.

(* ------------------------------------------------------------------ *)
(** ** The height-range lookup on every age and sex *)

Lemma parcourir_plages_aucune (a : Z) (plages : list ((Z * Z) * (Z * Z))) :
  parcourir_plages a plages = None
  <-> forall i, In i (map fst plages) -> ~ contient i a.
Proof.
  induction plages as [|[[x y] [mn mx]] l IH]; cbn [map In parcourir_plages].
  - split; [intros _ i []|reflexivity].
  - destruct ((x <=? a)%Z && (a <? y)%Z)%bool eqn:E.
    + split; [discriminate|]. intro H. exfalso.
      apply (H (x, y)); [now left|].
      reflechir. unfold contient. cbn. lia.
    + rewrite IH. split.
      * intros H i [<-|Hi]; [|now apply H].
        unfold contient. cbn. reflechir. destruct E; reflechir; lia.
      * intros H i Hi. apply H. now right.
Qed.

Lemma chercher_taille_normale (s : string) :
  (exists plages,
     (s = "homme"%string \/ s = "femme"%string)
     /\ chercher s taille_normale = Some plages
     /\ enchainees 0 150 (map fst plages))
  \/ (s <> "homme"%string /\ s <> "femme"%string
      /\ chercher s taille_normale = None).
Proof.
  unfold taille_normale. cbn [chercher].
  destruct (String.eqb s "homme") eqn:Eh.
  - left. apply String.eqb_eq in Eh. eexists. split; [now left|].
    split; [reflexivity|]. cbn. repeat split; lia.
  - apply String.eqb_neq in Eh.
    destruct (String.eqb s "femme") eqn:Ef.
    + left. apply String.eqb_eq in Ef. eexists. split; [now right|].
      split; [reflexivity|]. cbn. repeat split; lia.
    + apply String.eqb_neq in Ef. right. now repeat split.
Qed.

(** X6.  [_obtenir_plage_taille] returns [None] exactly when the sex is
    neither "homme" nor "femme" (as written: the helper does not lower-case
    it) or the age is below 0 or from 150 on. *)
Theorem obtenir_plage_taille_sans_reponse (a : Z) (s : string) :
  _obtenir_plage_taille a s = None
  <-> (s <> "homme"%string /\ s <> "femme"%string)
      \/ (a < 0)%Z \/ (150 <= a)%Z.
Proof.
  unfold _obtenir_plage_taille.
  destruct (chercher_taille_normale s)
    as [(plages & Hs & -> & Hc)|(Hh & Hf & ->)].
  - rewrite parcourir_plages_aucune. split.
    + intro H. right.
      destruct (Z_lt_dec a 0) as [|Hge]; [now left|].
      destruct (Z_le_dec 150 a) as [|Hlt]; [now right|].
      exfalso.
      destruct (proj2 (enchainees_couverture _ _ _ Hc a)) as (i & Hi & Hci);
        [lia|].
      exact (H i Hi Hci).
    + intros [(Hh & Hf)|Ha] i Hi Hci.
      * destruct Hs; contradiction.
      * assert (0 <= a < 150)%Z; [|lia].
        apply (enchainees_couverture _ _ _ Hc). now exists i.
  - split; [now left|reflexivity].
Qed.

Lemma plage_definie (a : Z) (s : string) :
  (0 <= a <= 120)%Z -> s = "homme"%string \/ s = "femme"%string ->
  exists mn mx, _obtenir_plage_taille a s = Some (mn, mx).
Proof.
  intros Ha Hs. unfold _obtenir_plage_taille.
  destruct (chercher_taille_normale s)
    as [(plages & _ & -> & Hc)|(Hh & Hf & _)];
    [|destruct Hs; contradiction].
  destruct (parcourir_plages_trouve a plages) as (i & [mn mx] & _ & _ & Hr).
  - apply (enchainees_couverture _ _ _ Hc). lia.
  - now exists mn, mx.
Qed.

(* ------------------------------------------------------------------ *)
(** ** Step 2: the height against the range of the age and sex *)

(** X7.  For a record that reaches Step 2 (required fields present, base
    values valid), with (min, max) the range that [_obtenir_plage_taille]
    returns for the age and the lower-cased sex: the height error is among
    the errors of the result iff taille < min or taille > max, and Step 2
    then appends it and deducts 15; a height equal to a bound passes. *)
Theorem taille_hors_plage_de_l_age
  (d : Donnees) (a : Z) (s : string) (t p : Q) :
  age d = Some a -> sexe d = Some s ->
  taille d = Some t -> poids d = Some p ->
  valeurs_valides a (Py.lower s) t p ->
  exists r min_taille max_taille,
    valider_donnees d = Ok r
    /\ _obtenir_plage_taille a (Py.lower s) = Some (min_taille, max_taille)
    /\ let erreur :=
         TailleIncoherente (Py.lower s) a t min_taille max_taille in
       let hors_plage := t < inject_Z min_taille \/ inject_Z max_taille < t in
       (In erreur (erreurs r) <-> hors_plage)
       /\ forall st,
            (hors_plage ->
             verifier_taille_age a (Py.lower s) t st
             = ajouter_erreur erreur 15 st)
            /\ (inject_Z min_taille <= t /\ t <= inject_Z max_taille ->
                verifier_taille_age a (Py.lower s) t st = st).
Proof.
  intros Ea Es Et Ep Hv.
  destruct (resultat_complet d a s t p Ea Es Et Ep Hv) as (r & Hr & He & _).
  destruct Hv as (Ha & Hs & _).
  destruct (plage_definie a (Py.lower s) Ha Hs) as (mn & mx & Ho).
  exists r, mn, mx. split; [exact Hr|]. split; [exact Ho|].
  cbv zeta. split.
  - rewrite He. cbn [Regles.rang Regles.verdicts nth_error].
    unfold Regles.taille_age. rewrite Ho.
    destruct (Py.lt t (inject_Z mn) || Py.gt t (inject_Z mx))%bool eqn:E.
    + apply hors_bornes_vrai in E. split; [now intros _|].
      intros _. now exists 15.
    + apply hors_bornes_faux in E. split; [now intros (pts & [=])|].
      intros [H|H]; lra.
  - intro st. unfold verifier_taille_age. rewrite Ho.
    destruct (Py.lt t (inject_Z mn) || Py.gt t (inject_Z mx))%bool eqn:E.
    + apply hors_bornes_vrai in E. split; [reflexivity|].
      intros (H1 & H2). destruct E; lra.
    + apply hors_bornes_faux in E. split; [|reflexivity].
      intros [H|H]; lra.
Qed.

Lemma taille_hors_plage_de_l_age_temoin :
  exists r,
    valider_donnees donnees2 = Ok r
    /\ In (TailleIncoherente "femme" 8 180 103 142) (erreurs r).
Proof.
  destruct (taille_hors_plage_de_l_age donnees2 8 "femme" 180 30)
    as (r & mn & mx & Hr & Ho & He & _); try reflexivity.
  - repeat split; try lia; try lra. now right.
  - assert (E : Some (mn, mx) = Some (103, 142)%Z)
      by (rewrite <- Ho; reflexivity).
    injection E as -> ->.
    exists r. split; [exact Hr|]. apply He. right. reflexivity.
Defined.

(* ------------------------------------------------------------------ *)
(** ** Step 4: the waist and leg ratios *)

Section RatiosSimples.

Import Regles.

Variables (v t : Q).
Hypothesis mesure_non_nulle : ~ v == 0.



End RatiosSimples.






(* ------------------------------------------------------------------ *)
(** ** Steps 5 and 6: the weight of adults and of children *)





Section PoidsSelonAge.

Import Regles.

Variables (a : Z) (s : string) (t p : Q).


Hypothesis age_positif : (0 <= a)%Z.
Hypothesis taille_positive : 0 < t.


End PoidsSelonAge.







(* ------------------------------------------------------------------ *)
(** ** The cross-checks against the ratios, and the criteria of validity *)

Section CroisementEtRatios.

Import Regles.



Variables (d : Donnees) (a : Z) (s : string) (t p : Q).
Hypothesis taille_positive : 0 < t.

(** An arm span within the tolerance of its ratio: no span error. *)
Lemma envergure_sans_erreur (env : Q) :
  ~ env == 0 ->
  (forall pts,
     ratio_envergure (Some env) t
     <> Erreur (RatioEnvergure (env / t) 0.98 1.06) pts) ->
  0.98 - 0.1 <= env / t /\ env / t <= 1.06 + 0.1.
Proof.
  intros Hnz H.
  destruct (envergure_trois_cas env t Hnz)
    as [(_ & E)|[((_ & H') & _)|((H1 & H2) & _)]].
  - exfalso. exact (H 10 E).
  - exact H'.
  - split; lra.
Qed.



End CroisementEtRatios.



Section SansErreur.

Import Regles.

Variables (t : Q).




Variables (a : Z) (s : string) (p : Q).
Hypothesis taille_positive : 0 < t.






End SansErreur.



(* ------------------------------------------------------------------ *)
(** ** What [afficher_resultat] prints *)

Section Affichage.

Variable r : ValidationResult.




Lemma affiche_tout_coherent :
  In LigneToutCoherent (afficher_resultat r)
  <-> erreurs r = [] /\ avertissements r = [].
Proof.
  unfold afficher_resultat. rewrite !in_app_iff. cbn [In].
  split.
  - intros [[H|[H|[]]]|[H|[H|H]]]; try discriminate.
    + destruct (non_vide (erreurs r)); [|destruct H].
      destruct H as [H|H]; [discriminate|].
      apply in_map_iff in H. destruct H as (m' & H & _). discriminate.
    + destruct (non_vide (avertissements r)); [|destruct H].
      destruct H as [H|H]; [discriminate|].
      apply in_map_iff in H. destruct H as (m' & H & _). discriminate.
    + destruct (erreurs r), (avertissements r); cbn in H;
        try destruct H; now split.
  - intros (-> & ->). cbn. tauto.
Qed.

End Affichage.


(** X16.  For every record, the display of the result of [valider_donnees]
    ends with the line of fully coherent data exactly when the score it
    shows is 100. *)
Theorem affichage_tout_coherent_ssi_score_100 (d : Donnees) :
  exists r,
    valider_donnees d = Ok r
    /\ In (LigneScore (score_coherence r)) (afficher_resultat r)
    /\ (In LigneToutCoherent (afficher_resultat r)
        <-> score_coherence r == 100).
Proof.
  destruct (valider_donnees_parcours d) as (r & Hr & Hp).
  destruct (parcours_comptes d r Hp) as (Hs & _ & _).
  exists r. split; [exact Hr|]. split.
  - unfold afficher_resultat. cbn. tauto.
  - rewrite affiche_tout_coherent, Hs. split.
    + intros (-> & ->). reflexivity.
    + intro H.
      assert (H0 : inject_Z (total_penalites (erreurs r ++ avertissements r))
                   == inject_Z 0) by (change (inject_Z 0) with 0; lra).
      now apply inject_Z_injective, total_penalites_nul, app_eq_nil in H0.
Qed.
